(** * Credit-report payment-history analysis (test2/server.js)

    A shallow embedding of [analyzeTextContent] and [parsePaymentGrid]
    and the properties of the reconstruction of payment grids from
    positioned text items.

    Modelling conventions.
    - A JavaScript number is an exact rational ([Q]); [Infinity], the
      initial value of the running minimum of the nearest-point scans,
      is [None] in an [option Q].  Rounding of IEEE doubles, NaN and
      overflow are outside this model.  The statement on translations
      depends on rounding: for it, the part of the grid parser that
      computes with x positions is given once more on binary64 numbers
      (module [Double]).
    - A JavaScript string is a [string] of ASCII characters; [trim],
      [includes] and [toUpperCase] are given their behaviour on ASCII
      text.
    - An object used as a map is an association list in creation order
      of its keys, which is what [Object.keys] and [Object.values]
      enumerate (array-index keys first, in ascending order).
    - Only entries 4 (x) and 5 (y) of a text item's placement
      [transform] are read by the code; the record keeps those two. *)

From Stdlib Require Import PrimFloat.
From Stdlib Require Import ZArith QArith Qabs Qround.
From Stdlib Require Import List String Ascii Bool Arith Lia Sorted Permutation.
Import ListNotations.

Local Open Scope string_scope.
Local Open Scope list_scope.

(** ** JavaScript numbers *)

Module Num.

(** [a < b] on numbers. *)
Definition lt (a b : Q) : bool := negb (Qle_bool b a).

(** [a < m] where [m] is a running minimum that starts at [Infinity]. *)
Definition lt_min (a : Q) (m : option Q) : bool :=
  match m with
  | None => true
  | Some b => lt a b
  end.

(** [Math.round]: nearest integer, halves rounded up. *)
Definition round (a : Q) : Z := Qfloor (a + (1 # 2)).

(** [Math.abs]. *)
Definition abs (a : Q) : Q := Qabs a.

End Num.

(** ** JavaScript strings (ASCII) *)

Module Str.

Definition is_space (c : ascii) : bool :=
  let n := nat_of_ascii c in
  ((9 <=? n) && (n <=? 13) || (n =? 32))%nat.

Fixpoint trimStart (s : string) : string :=
  match s with
  | EmptyString => EmptyString
  | String c r => if is_space c then trimStart r else s
  end.

Fixpoint trimEnd (s : string) : string :=
  match s with
  | EmptyString => EmptyString
  | String c r =>
      match trimEnd r with
      | EmptyString => if is_space c then EmptyString else String c EmptyString
      | r' => String c r'
      end
  end.

(** [s.trim()] *)
Definition trim (s : string) : string := trimEnd (trimStart s).

(** [s.includes(pat)] *)
Fixpoint includes (s pat : string) : bool :=
  String.prefix pat s ||
  match s with
  | EmptyString => false
  | String _ r => includes r pat
  end.

Definition upper (c : ascii) : ascii :=
  let n := nat_of_ascii c in
  if ((97 <=? n) && (n <=? 122))%nat then ascii_of_nat (n - 32) else c.

(** [s.toUpperCase()] *)
Fixpoint toUpperCase (s : string) : string :=
  match s with
  | EmptyString => EmptyString
  | String c r => String (upper c) (toUpperCase r)
  end.

Definition is_digit (c : ascii) : bool :=
  let n := nat_of_ascii c in ((48 <=? n) && (n <=? 57))%nat.

(** [/^\d{2}$/.test(s)] *)
Definition two_digits (s : string) : bool :=
  match s with
  | String c1 (String c2 EmptyString) => is_digit c1 && is_digit c2
  | _ => false
  end.

End Str.

(** ** JavaScript arrays and objects *)

Module Arr.

Section Sort.
Context {A : Type} (cmp : A -> A -> Q).

(** [a] is placed after [b] exactly when [cmp a b > 0]. *)
Fixpoint insert (a : A) (l : list A) : list A :=
  match l with
  | [] => [a]
  | b :: l' => if Num.lt 0 (cmp a b) then b :: insert a l' else a :: l
  end.

(** [l.sort(cmp)]: the sort is stable, so for a consistent comparator
    its result is the one of this insertion sort. *)
Fixpoint sort (l : list A) : list A :=
  match l with
  | [] => []
  | a :: l' => insert a (sort l')
  end.
End Sort.

(** [l[i] = v] for an index within the array. *)
Fixpoint set {A : Type} (l : list A) (i : nat) (v : A) : list A :=
  match l, i with
  | [], _ => []
  | _ :: l', O => v :: l'
  | a :: l', S i' => a :: set l' i' v
  end.

(** [l[i].field = ...]: the element at an index is updated in place. *)
Fixpoint modify {A : Type} (l : list A) (i : nat) (f : A -> A) : list A :=
  match l, i with
  | [], _ => []
  | a :: l', O => f a :: l'
  | a :: l', S i' => a :: modify l' i' f
  end.

End Arr.

Module Obj.

Section Obj.
Context {K V : Type} (eqb : K -> K -> bool).

(** [o[k]] on own properties. *)
Fixpoint get (o : list (K * V)) (k : K) : option V :=
  match o with
  | [] => None
  | (k', v) :: o' => if eqb k k' then Some v else get o' k
  end.

(** [o[k] = v]: an existing key keeps its place, a new one is created last. *)
Fixpoint set (o : list (K * V)) (k : K) (v : V) : list (K * V) :=
  match o with
  | [] => [(k, v)]
  | (k', v') :: o' =>
      if eqb k k' then (k', v) :: o' else (k', v') :: set o' k v
  end.
End Obj.

(** [Object.keys(o)] for an object whose keys are not array indices. *)
Definition keys {K V : Type} (o : list (K * V)) : list K := map fst o.

End Obj.

(** ** Data model *)

Record TextItem := mkItem {
  str : string;
  page : Z;
  transform4 : Q;   (* transform[4], the x position *)
  transform5 : Q    (* transform[5], the y position *)
}.

Module Header.
Record t := mk { month : string; x : Q; year : string }.
End Header.

Record Grid := mkGrid {
  headers : list Header.t;
  data : list (string * list string)
}.

(** A value stored in an issue's [status]: a string, or a member that the
    [LEGEND] object inherits from [Object.prototype] (a function, or for
    [__proto__] the prototype object itself). *)
Inductive jsval :=
| JStr (s : string)
| JInherited (member : string).

Module Issue.
Record t := mk { bureau : string; month : string; year : string; status : jsval }.
End Issue.

Module Account.
Record t := mk { name : string; issues : list Issue.t }.
End Account.

(** The outcome of [analyzeTextContent]: the returned array or the thrown error. *)
Inductive outcome :=
| Return (accounts : list Account.t)
| Throw (message : string).

(** ** The status-code table *)

Definition LEGEND : list (string * string) :=
  [ ("OK", "Current");
    ("30", "30 Days Late");
    ("60", "60 Days Late");
    ("90", "90 Days Late");
    ("120", "120 Days Late");
    ("150", "150 Days Late");
    ("180", "180 Days Late");
    ("CO", "Chargeoff or Collection");
    ("RF", "Repossession or Foreclosure");
    ("PP", "Payment Plan");
    ("VS", "Voluntary Surrender");
    ("NDP", "No Data Provided") ].

(** [LEGEND] is an object literal, so a property that is not its own is
    looked up in [Object.prototype]. *)
Definition Object_prototype : list string :=
  [ "constructor"; "__defineGetter__"; "__defineSetter__"; "hasOwnProperty";
    "__lookupGetter__"; "__lookupSetter__"; "isPrototypeOf";
    "propertyIsEnumerable"; "toString"; "valueOf"; "__proto__";
    "toLocaleString" ].

(** [LEGEND[k]]; [None] is [undefined]. *)
Definition LEGEND_get (k : string) : option jsval :=
  match Obj.get String.eqb LEGEND k with
  | Some label => Some (JStr label)
  | None =>
      if existsb (String.eqb k) Object_prototype then Some (JInherited k) else None
  end.

Definition truthy (v : option jsval) : bool :=
  match v with
  | None => false
  | Some (JStr s) => negb (s =? "")
  | Some (JInherited _) => true
  end.

(** [LEGEND[code] || `Unknown Code: ${code}`] *)
Definition status_label (code : string) : jsval :=
  match LEGEND_get code with
  | Some v => if truthy (Some v) then v else JStr ("Unknown Code: " ++ code)
  | None => JStr ("Unknown Code: " ++ code)
  end.

(** ** parsePaymentGrid *)

Definition months : list string :=
  [ "Jan"; "Feb"; "Mar"; "Apr"; "May"; "Jun";
    "Jul"; "Aug"; "Sep"; "Oct"; "Nov"; "Dec" ].

Definition is_month_item (item : TextItem) : bool :=
  existsb (String.eqb (Str.trim (str item))) months.

Definition is_year_item (item : TextItem) : bool :=
  Str.two_digits (Str.trim (str item)).

Definition names_bureau (bureauName : string) (item : TextItem) : bool :=
  Str.includes (str item) bureauName.

(** [rows[y].push(item)], creating [rows[y]] when it is missing. *)
Fixpoint rows_push (rows : list (Z * list TextItem)) (y : Z) (item : TextItem)
  : list (Z * list TextItem) :=
  match rows with
  | [] => [(y, [item])]
  | (y', row) :: rows' =>
      if (y =? y')%Z then (y', row ++ [item]) :: rows'
      else (y', row) :: rows_push rows' y item
  end.

Definition group_rows (gridItems : list TextItem) : list (Z * list TextItem) :=
  fold_left (fun rows item => rows_push rows (Num.round (transform5 item)) item)
            gridItems [].

(** Keys that are array indices are enumerated first, in ascending order. *)
Definition is_array_index (k : Z) : bool :=
  ((0 <=? k) && (k <? 4294967295))%Z.

Definition Object_values (rows : list (Z * list TextItem)) : list (list TextItem) :=
  map snd
    (Arr.sort (fun a b => inject_Z (fst a - fst b))
              (filter (fun r => is_array_index (fst r)) rows)
     ++ filter (fun r => negb (is_array_index (fst r))) rows).

(** [row[0].transform[5]]; a row of [rows] is never empty. *)
Definition row_y (row : list TextItem) : Q :=
  match row with
  | [] => 0
  | item :: _ => transform5 item
  end.

Definition sortedRows (gridItems : list TextItem) : list (list TextItem) :=
  Arr.sort (fun a b => row_y b - row_y a) (Object_values (group_rows gridItems)).

Definition mkHeaders (monthRow : list TextItem) : list Header.t :=
  Arr.sort (fun a b => Header.x a - Header.x b)
    (map (fun monthItem =>
            Header.mk (Str.trim (str monthItem)) (transform4 monthItem) "N/A")
         monthRow).

(** The inner [headers.forEach((header, index) => ...)] of both nearest-column
    scans; the state is [(closestIndex, minDistance)], with [None] for the
    initial [-1] and [Infinity]. *)
Fixpoint nearest_scan (hs : list Header.t) (index : nat) (px : Q)
  (st : option nat * option Q) : option nat * option Q :=
  match hs with
  | [] => st
  | header :: hs' =>
      let distance := Num.abs (Header.x header - px) in
      nearest_scan hs' (S index) px
        (if Num.lt_min distance (snd st) then (Some index, Some distance) else st)
  end.

Definition closestIndex (hs : list Header.t) (px : Q) : option nat :=
  fst (nearest_scan hs 0 px (None, None)).

Definition set_year (yr : string) (h : Header.t) : Header.t :=
  Header.mk (Header.month h) (Header.x h) yr.

(** One iteration of [yearRow.forEach]. *)
Definition assignYear (hs : list Header.t) (yearItem : TextItem) : list Header.t :=
  match closestIndex hs (transform4 yearItem) with
  | Some i => Arr.modify hs i (set_year ("20" ++ Str.trim (str yearItem)))
  | None => hs
  end.

Definition assignYears (hs : list Header.t) (yearRow : list TextItem) : list Header.t :=
  fold_left assignYear yearRow hs.

(** One iteration of [statusItems.forEach]. *)
Definition assignStatus (hs : list Header.t) (statuses : list string)
  (statusItem : TextItem) : list string :=
  match closestIndex hs (transform4 statusItem) with
  | Some i => Arr.set statuses i (Str.trim (str statusItem))
  | None => statuses
  end.

Definition decodeRow (hs : list Header.t) (statusItems : list TextItem) : list string :=
  fold_left (assignStatus hs) statusItems (repeat "" (List.length hs)).

Definition processBureauRow (hs : list Header.t) (data : list (string * list string))
  (bureauRow : option (list TextItem)) (bureauName : string)
  : list (string * list string) :=
  match bureauRow with
  | None => data
  | Some row =>
      let statusItems := filter (fun item => negb (names_bureau bureauName item)) row in
      Obj.set String.eqb data bureauName (decodeRow hs statusItems)
  end.

Definition emptyGrid : Grid := mkGrid [] [].

Definition parsePaymentGrid (gridItems : list TextItem) : Grid :=
  match gridItems with
  | [] => emptyGrid
  | _ =>
      let rows := sortedRows gridItems in
      let monthRow := find (existsb is_month_item) rows in
      let yearRow := find (existsb is_year_item) rows in
      let transUnionRow := find (existsb (names_bureau "TransUnion")) rows in
      let experianRow := find (existsb (names_bureau "Experian")) rows in
      let equifaxRow := find (existsb (names_bureau "Equifax")) rows in
      match monthRow, yearRow with
      | Some monthRow, Some yearRow =>
          let hs := assignYears (mkHeaders monthRow) yearRow in
          let data := processBureauRow hs [] transUnionRow "TransUnion" in
          let data := processBureauRow hs data experianRow "Experian" in
          let data := processBureauRow hs data equifaxRow "Equifax" in
          mkGrid hs data
      | _, _ => emptyGrid
      end
  end.

(** ** analyzeTextContent *)

Definition sentinel : string := "Two-Year payment history".

Definition is_marker (item : TextItem) : bool := Str.includes (str item) sentinel.

Definition paymentHistoryMarkers (textItems : list TextItem) : list TextItem :=
  filter is_marker textItems.

Definition is_name_candidate (marker item : TextItem) : bool :=
  (page item =? page marker)%Z
  && Num.lt (transform5 marker) (transform5 item)
  && (2 <? String.length (Str.trim (str item)))%nat
  && (Str.toUpperCase (str item) =? str item).

Definition potentialAccountNames (textItems : list TextItem) (marker : TextItem)
  : list TextItem :=
  Arr.sort (fun a b => transform5 b - transform5 a)
           (filter (is_name_candidate marker) textItems).

(** The loop over [potentialAccountNames]; the state is
    [(closestName, minDistance)]. *)
Fixpoint closestName_scan (names : list TextItem) (marker : TextItem)
  (st : option TextItem * option Q) : option TextItem * option Q :=
  match names with
  | [] => st
  | name :: names' =>
      let distance := transform5 name - transform5 marker in
      closestName_scan names' marker
        (if Num.lt 0 distance && Num.lt_min distance (snd st)
         then (Some name, Some distance) else st)
  end.

Definition accountName (textItems : list TextItem) (marker : TextItem) : string :=
  match potentialAccountNames textItems marker with
  | [] => "Unknown Account"
  | names =>
      match fst (closestName_scan names marker (None, None)) with
      | Some closestName => Str.trim (str closestName)
      | None => "Unknown Account"
      end
  end.

Definition gridItems (textItems : list TextItem) (marker : TextItem) : list TextItem :=
  let gridTop := transform5 marker - 100 in
  let gridBottom := transform5 marker - 20 in
  let gridPage := page marker in
  filter (fun item =>
            (page item =? gridPage)%Z
            && Num.lt (transform5 item) gridBottom
            && Num.lt gridTop (transform5 item))
         textItems.

(** [grid.headers[index] || { month: 'N/A', year: 'N/A' }] *)
Definition header_at (hs : list Header.t) (index : nat) : Header.t :=
  match nth_error hs index with
  | Some header => header
  | None => Header.mk "N/A" 0 "N/A"
  end.

(** The callback [(status, index) => ...]: the issues it pushes. *)
Definition cell_issues (hs : list Header.t) (bureau : string)
  (status : string) (index : nat) : list Issue.t :=
  if negb (Str.trim status =? "OK") && negb (Str.trim status =? "")
  then
    let header := header_at hs index in
    [ Issue.mk bureau (Header.month header) (Header.year header)
               (status_label (Str.trim status)) ]
  else [].

(** [grid.data[bureau].forEach((status, index) => ...)], from [index] on. *)
Fixpoint scan_statuses (hs : list Header.t) (bureau : string)
  (statuses : list string) (index : nat) : list Issue.t :=
  match statuses with
  | [] => []
  | status :: statuses' =>
      cell_issues hs bureau status index
      ++ scan_statuses hs bureau statuses' (S index)
  end.

Definition grid_issues (grid : Grid) : list Issue.t :=
  match headers grid with
  | [] => []
  | _ =>
      flat_map
        (fun bureau =>
           match Obj.get String.eqb (data grid) bureau with
           | Some statuses => scan_statuses (headers grid) bureau statuses 0
           | None => []
           end)
        (Obj.keys (data grid))
  end.

(** The body of [for (const marker of paymentHistoryMarkers)]: the account
    pushed for one marker. *)
Definition markerAccount (textItems : list TextItem) (marker : TextItem) : Account.t :=
  Account.mk (accountName textItems marker)
             (grid_issues (parsePaymentGrid (gridItems textItems marker))).

Definition has_issues (acc : Account.t) : bool :=
  (0 <? List.length (Account.issues acc))%nat.

Definition unsupported : string :=
  "Could not find any 'Two-Year payment history' sections in the document. The format might not be supported.".

Definition analyzeTextContent (textItems : list TextItem) : outcome :=
  let markers := paymentHistoryMarkers textItems in
  if (List.length markers =? 0)%nat then Throw unsupported
  else Return (filter has_issues (map (markerAccount textItems) markers)).

(** ** parsePdfWithPdfJs *)

(** The decoding of the bytes of a document is the work of PDF.js; a
    decoded document is given here by the text items of its pages, in page
    order.  What [parsePdfWithPdfJs] adds is the loop over the pages. *)

(** [item.page = i] *)
Definition set_page (i : Z) (item : TextItem) : TextItem :=
  mkItem (str item) i (transform4 item) (transform5 item).

(** The loop [for (let i = ...; i <= pdf.numPages; i++)], from page [i] on:
    the items of each page are tagged with the page number and pushed. *)
Fixpoint extractPages (pages : list (list TextItem)) (i : Z) : list TextItem :=
  match pages with
  | [] => []
  | items :: pages' => map (set_page i) items ++ extractPages pages' (i + 1)
  end.

(** The result [{ textItems, numPages }]. *)
Definition parsePdfWithPdfJs (pages : list (list TextItem)) : list TextItem * Z :=
  (extractPages pages 1, Z.of_nat (List.length pages)).

(** ** POST /analyze *)

(** An uploaded file, as far as the handler reads it. *)
Record Upload := mkUpload { originalname : string }.

(** The JSON body of a response. *)
Inductive body :=
| Analysis (success : bool) (filename : string) (totalPages : Z)
           (accountsWithIssues : nat) (results : list Account.t)
           (legend : list (string * string))
| Failure (error : string) (success : option bool).

(** [error.message || fallback] *)
Definition message_or (message fallback : string) : string :=
  if message =? "" then fallback else message.

Definition no_file_message : string :=
  "No PDF file uploaded. Please upload a PDF file using the "
  ++ String "034" ("pdf" ++ String "034" " field.").

Definition analysis_failed : string :=
  "An error occurred while analyzing the PDF file.".

(** The handler of [POST /analyze]: the status and the body it sends.
    [decoded] is what PDF.js makes of the uploaded bytes: the pages, or the
    message of the error it rejects with. *)
Definition postAnalyze (file : option Upload)
  (decoded : list (list TextItem) + string) : Z * body :=
  match file with
  | None => (400%Z, Failure no_file_message None)
  | Some f =>
      match decoded with
      | inr message => (500%Z, Failure (message_or message analysis_failed) (Some false))
      | inl pages =>
          let (textItems, numPages) := parsePdfWithPdfJs pages in
          match analyzeTextContent textItems with
          | Throw message =>
              (500%Z, Failure (message_or message analysis_failed) (Some false))
          | Return analysisResults =>
              (200%Z, Analysis true (originalname f) numPages
                              (List.length analysisResults) analysisResults LEGEND)
          end
      end
  end.

(** ** Headers, years and statuses on IEEE doubles *)

(** The part of [parsePaymentGrid] that reads x positions (header
    construction, year assignment, bureau decoding), once more with
    [transform[4]] as a binary64 number and with the arithmetic of the
    code: the subtraction rounds, [Math.abs] and [<] are exact, the running
    minimum starts at [Infinity].  The rows are taken as classified: row
    grouping and classification read y and the strings only. *)

Module Double.

(** An item of a row, as far as this part reads it. *)
Record Cell := mkCell { str : string; transform4 : float }.

Record Header := mkHeader { month : string; x : float; year : string }.

Record Grid := mkGrid { headers : list Header; data : list (string * list string) }.

(** [headers.sort((a, b) => a.x - b.x)]: [a] goes after [b] when
    [a.x - b.x > 0]. *)
Fixpoint insert (a : Header) (l : list Header) : list Header :=
  match l with
  | [] => [a]
  | b :: l' =>
      if PrimFloat.ltb 0%float (PrimFloat.sub (x a) (x b)) then b :: insert a l'
      else a :: l
  end.

Fixpoint sort (l : list Header) : list Header :=
  match l with
  | [] => []
  | a :: l' => insert a (sort l')
  end.

Definition mkHeaders (monthRow : list Cell) : list Header :=
  sort (map (fun monthItem => mkHeader (Str.trim (str monthItem))
                                       (transform4 monthItem) "N/A")
            monthRow).

(** The state is [(closestIndex, minDistance)]; [None] is the initial [-1]. *)
Fixpoint nearest_scan (hs : list Header) (index : nat) (px : float)
  (st : option nat * float) : option nat * float :=
  match hs with
  | [] => st
  | header :: hs' =>
      let distance := PrimFloat.abs (PrimFloat.sub (x header) px) in
      nearest_scan hs' (S index) px
        (if PrimFloat.ltb distance (snd st) then (Some index, distance) else st)
  end.

Definition closestIndex (hs : list Header) (px : float) : option nat :=
  fst (nearest_scan hs 0 px (None, PrimFloat.infinity)).

Definition set_year (yr : string) (h : Header) : Header :=
  mkHeader (month h) (x h) yr.

Definition assignYear (hs : list Header) (yearItem : Cell) : list Header :=
  match closestIndex hs (transform4 yearItem) with
  | Some i => Arr.modify hs i (set_year ("20" ++ Str.trim (str yearItem)))
  | None => hs
  end.

Definition assignYears (hs : list Header) (yearRow : list Cell) : list Header :=
  fold_left assignYear yearRow hs.

Definition assignStatus (hs : list Header) (statuses : list string)
  (statusItem : Cell) : list string :=
  match closestIndex hs (transform4 statusItem) with
  | Some i => Arr.set statuses i (Str.trim (str statusItem))
  | None => statuses
  end.

Definition decodeRow (hs : list Header) (statusItems : list Cell) : list string :=
  fold_left (assignStatus hs) statusItems (repeat "" (List.length hs)).

Definition processBureauRow (hs : list Header) (data : list (string * list string))
  (bureauRow : option (list Cell)) (bureauName : string)
  : list (string * list string) :=
  match bureauRow with
  | None => data
  | Some row =>
      let statusItems :=
        filter (fun item => negb (Str.includes (str item) bureauName)) row in
      Obj.set String.eqb data bureauName (decodeRow hs statusItems)
  end.













End Double.

(** ** Sample documents *)

(** One marker, the grid of the worked example. *)

Definition sample : list TextItem :=
  [ mkItem "Two-Year payment history" 1 50 500;
    mkItem "Jan" 1 100 470;
    mkItem "Feb" 1 150 470;
    mkItem "23" 1 101 460;
    mkItem "23" 1 149 460;
    mkItem "TransUnion" 1 20 450;
    mkItem "30" 1 102 450;
    mkItem "" 1 151 450 ].



(** A grid window whose month row is out of order in the stream. *)
Definition unordered_window : list TextItem :=
  [ mkItem "Feb" 1 150 470;
    mkItem "Jan" 1 100 470;
    mkItem "23" 1 101 460;
    mkItem "24" 1 149 460;
    mkItem "TransUnion" 1 20 450;
    mkItem "30" 1 102 450;
    mkItem "" 1 151 450 ].

(** [sample] with a TransUnion cell that names a member of [Object.prototype]. *)
Definition sample_inherited : list TextItem :=
  [ mkItem "Two-Year payment history" 1 50 500;
    mkItem "Jan" 1 100 470;
    mkItem "Feb" 1 150 470;
    mkItem "23" 1 101 460;
    mkItem "23" 1 149 460;
    mkItem "TransUnion" 1 20 450;
    mkItem "constructor" 1 102 450;
    mkItem "OK" 1 151 450 ].


(** Two headers, and a TransUnion row with two cells nearest the first one. *)
Definition two_headers : list Header.t :=
  [ Header.mk "Jan" 100 "2023"; Header.mk "Feb" 150 "2023" ].


(** Three accounts on three pages: the first has a late payment, the grid of
    the second has no year row, every status of the third is OK or empty. *)
Definition first_marker : TextItem := mkItem "Two-Year payment history" 1 50 500.
Definition second_marker : TextItem := mkItem "Two-Year payment history" 2 50 500.
Definition third_marker : TextItem := mkItem " Two-Year payment history:" 3 50 (601 # 2).

Definition three_accounts : list TextItem :=
  [ mkItem "Credit report" 1 50 700;
    mkItem "ACME BANK " 1 50 520;
    mkItem "OTHER HEADING" 1 50 560;
    first_marker;
    mkItem "Feb" 1 150 (4701 # 10);
    mkItem "Jan" 1 100 (4699 # 10);
    mkItem "23" 1 101 460;
    mkItem "24" 1 149 460;
    mkItem "TransUnion" 1 20 450;
    mkItem "30" 1 102 450;
    mkItem "" 1 151 450;
    mkItem "Equifax" 1 20 430;
    mkItem " CO " 1 149 430;
    mkItem "OK" 1 99 430;
    second_marker;
    mkItem "Jan" 2 100 470;
    mkItem "Feb" 2 150 470;
    mkItem "Experian" 2 20 450;
    mkItem "120" 2 102 450;
    mkItem "FIRST NATIONAL" 3 50 350;
    third_marker;
    mkItem "Jan" 3 100 270;
    mkItem "Feb" 3 150 270;
    mkItem "23" 3 101 260;
    mkItem "23" 3 149 260;
    mkItem "Experian" 3 20 250;
    mkItem "OK" 3 102 250;
    mkItem " " 3 151 250 ].

(** The first two accounts of [three_accounts]. *)
Definition two_accounts : list TextItem := firstn 19 three_accounts.

(** A marker under two candidate names at the same height. *)
Definition tied_marker : TextItem := mkItem "Two-Year payment history" 1 50 500.

Definition tied_names : list TextItem :=
  [ mkItem "FAR BANK" 1 50 560;
    mkItem "FIRST BANK" 1 50 520;
    mkItem "SECOND BANK" 1 200 520;
    tied_marker ].

(** ** Vocabulary of the statements *)

(** A status that raises no issue. *)
Definition benign (status : string) : Prop :=
  Str.trim status = "OK" \/ Str.trim status = "".








(** A write by index: the item [a] updates the cell [idx a], if any. *)
Definition write {A B : Type} (idx : A -> option nat) (upd : A -> B -> B)
  (l : list B) (a : A) : list B :=
  match idx a with
  | Some i => Arr.modify l i (upd a)
  | None => l
  end.




(** Ascending order of a key. *)
Definition ascending_by {A : Type} (key : A -> Q) (a b : A) : Prop :=
  key a <= key b.

(** The row key of an item, [Math.round(item.transform[5])], and of a row. *)
Definition item_key (item : TextItem) : Z := Num.round (transform5 item).

Definition row_key (row : list TextItem) : Z := Num.round (row_y row).

(** The items of a list that fall in the row of key [k], in their order. *)
Definition cluster (k : Z) (items : list TextItem) : list TextItem :=
  filter (fun item => (item_key item =? k)%Z) items.

(** What [rows] holds once the items [seen] are grouped: under each key,
    the cluster of that key, which is not empty. *)
Definition rows_of (seen : list TextItem) (rows : list (Z * list TextItem)) : Prop :=
  Forall (fun r => snd r = cluster (fst r) seen /\ snd r <> []) rows.

(** The three bureaus, in the order in which their rows are decoded. *)
Definition bureaus : list string := [ "TransUnion"; "Experian"; "Equifax" ].

(** What a header shows of the month item it was made from. *)
Definition header_cell (h : Header.t) : string * Q := (Header.month h, Header.x h).

Definition month_cell (item : TextItem) : string * Q :=
  (Str.trim (str item), transform4 item).

(** The items of a page. *)
Definition on_page (p : Z) (item : TextItem) : bool := (page item =? p)%Z.

(** The outcome expected of two streams analysed as one: the accounts of
    both, or the accounts of the one that has markers. *)
Definition merge_outcomes (o1 o2 : outcome) : outcome :=
  match o1, o2 with
  | Return a1, Return a2 => Return (a1 ++ a2)
  | Throw _, o => o
  | o, Throw _ => o
  end.



(** The streams of the pages of a document, from page [i] on. *)
Fixpoint pageStreams (pages : list (list TextItem)) (i : Z) : list (list TextItem) :=
  match pages with
  | [] => []
  | items :: pages' => map (set_page i) items :: pageStreams pages' (i + 1)
  end.

(** A status that raises an issue: not OK and not empty once trimmed. *)
Definition is_abnormal (status : string) : bool :=
  negb (Str.trim status =? "OK") && negb (Str.trim status =? "").

(** * Properties *)

(** ** Numbers *)

Lemma lt_true_iff (a b : Q) : Num.lt a b = true <-> a < b.
Proof.
  unfold Num.lt. rewrite negb_true_iff. split; intro H.
  - apply Qnot_le_lt. intro L. apply Qle_bool_iff in L. congruence.
  - destruct (Qle_bool b a) eqn:E; [|reflexivity].
    apply Qle_bool_iff in E. exfalso. exact (Qlt_not_le _ _ H E).
Qed.

Lemma lt_false_iff (a b : Q) : Num.lt a b = false <-> b <= a.
Proof.
  unfold Num.lt. rewrite negb_false_iff. apply Qle_bool_iff.
Qed.

Lemma lt_compat (a b a' b' : Q) : a == a' -> b == b' -> Num.lt a b = Num.lt a' b'.
Proof.
  intros Ha Hb. destruct (Num.lt a' b') eqn:E.
  - apply lt_true_iff. rewrite Ha, Hb. now apply lt_true_iff.
  - apply lt_false_iff. rewrite Ha, Hb. now apply lt_false_iff.
Qed.

Lemma pos_diff_iff (a b : Q) : Num.lt 0 (a - b) = true <-> b < a.
Proof.
  rewrite lt_true_iff. split; intro H.
  - apply (Qplus_lt_l _ _ (- b)). setoid_replace (b + - b) with 0 by ring. exact H.
  - apply (Qplus_lt_l _ _ (- b)) in H. setoid_replace (b + - b) with 0 in H by ring. exact H.
Qed.

Lemma pos_diff_false_iff (a b : Q) : Num.lt 0 (a - b) = false <-> a <= b.
Proof.
  rewrite lt_false_iff. split; intro H.
  - apply (Qplus_le_l _ _ (- b)). setoid_replace (b + - b) with 0 by ring. exact H.
  - apply (Qplus_le_l _ _ (- b)) in H. setoid_replace (b + - b) with 0 in H by ring. exact H.
Qed.

(** ** Sorting *)

Section SortFacts.
Context {A : Type} (cmp : A -> A -> Q).

Lemma insert_In (a b : A) (l : list A) :
  In b (Arr.insert cmp a l) <-> b = a \/ In b l.
Proof.
  induction l as [|c l IH]; simpl.
  - intuition.
  - destruct (Num.lt 0 (cmp a c)); simpl; rewrite ?IH; intuition.
Qed.

Lemma sort_In (b : A) (l : list A) : In b (Arr.sort cmp l) <-> In b l.
Proof.
  induction l as [|a l IH]; simpl; [tauto|].
  rewrite insert_In, IH. intuition.
Qed.

Lemma insert_length (a : A) (l : list A) :
  List.length (Arr.insert cmp a l) = S (List.length l).
Proof.
  induction l as [|c l IH]; simpl; [reflexivity|].
  destruct (Num.lt 0 (cmp a c)); simpl; now rewrite ?IH.
Qed.

Lemma sort_length (l : list A) : List.length (Arr.sort cmp l) = List.length l.
Proof.
  induction l as [|a l IH]; simpl; [reflexivity|].
  now rewrite insert_length, IH.
Qed.

Lemma sort_nil_iff (l : list A) : Arr.sort cmp l = [] <-> l = [].
Proof.
  split; intro H.
  - apply length_zero_iff_nil. rewrite <- sort_length, H. reflexivity.
  - now subst.
Qed.
End SortFacts.

(** Sorting by a key: the comparator is the difference of the keys. *)
Section SortByKey.
Context {A : Type} (key : A -> Q).

Lemma insert_ascending (a : A) (l : list A) :
  StronglySorted (ascending_by key) l ->
  StronglySorted (ascending_by key) (Arr.insert (fun a b => key a - key b) a l).
Proof.
  induction 1 as [|c l Hl IH Hc]; simpl.
  - constructor; constructor.
  - destruct (Num.lt 0 (key a - key c)) eqn:E.
    + constructor; [exact IH|].
      apply Forall_forall. intros b Hb.
      apply insert_In in Hb. destruct Hb as [->|Hb].
      * apply pos_diff_iff in E. now apply Qlt_le_weak.
      * rewrite Forall_forall in Hc. now apply Hc.
    + apply pos_diff_false_iff in E.
      constructor; [now constructor|].
      constructor; [exact E|].
      rewrite Forall_forall in Hc |- *. intros b Hb.
      unfold ascending_by. eapply Qle_trans; [exact E|now apply Hc].
Qed.

Lemma sort_ascending (l : list A) :
  StronglySorted (ascending_by key) (Arr.sort (fun a b => key a - key b) l).
Proof.
  induction l as [|a l IH]; simpl; [constructor|].
  now apply insert_ascending.
Qed.
End SortByKey.

Lemma StronglySorted_nth {A : Type} (R : A -> A -> Prop) (l : list A) :
  StronglySorted R l ->
  forall i j a b, (i < j)%nat -> nth_error l i = Some a -> nth_error l j = Some b -> R a b.
Proof.
  induction 1 as [|c l Hl IH Hc]; intros i j a b Hij Hi Hj.
  - destruct i; discriminate.
  - destruct j as [|j]; [lia|]. simpl in Hj.
    destruct i as [|i]; simpl in Hi.
    + injection Hi as <-. rewrite Forall_forall in Hc.
      apply Hc. eapply nth_error_In; eauto.
    + eapply (IH i j); eauto. lia.
Qed.

(** ** Arrays *)

Lemma set_length {A : Type} (l : list A) (i : nat) (v : A) :
  List.length (Arr.set l i v) = List.length l.
Proof.
  revert i. induction l as [|a l IH]; intros [|i]; simpl; auto.
Qed.

Lemma set_map {A B : Type} (f : A -> B) (l : list A) (i : nat) (v : A) :
  map f (Arr.set l i v) = Arr.set (map f l) i (f v).
Proof.
  revert i. induction l as [|a l IH]; intros [|i]; simpl; auto.
  now rewrite IH.
Qed.

Lemma set_same {A : Type} (l : list A) (i : nat) (v : A) :
  nth_error l i = Some v -> Arr.set l i v = l.
Proof.
  revert i. induction l as [|a l IH]; intros [|i]; simpl; intro H; try discriminate.
  - now injection H as ->.
  - now rewrite IH.
Qed.

Lemma set_nth_eq {A : Type} (l : list A) (i : nat) (v : A) :
  (i < List.length l)%nat -> nth_error (Arr.set l i v) i = Some v.
Proof.
  revert i. induction l as [|a l IH]; intros [|i]; simpl; intro H; try lia; auto.
  apply IH. lia.
Qed.

Lemma modify_map {A B : Type} (g : A -> B) (f : A -> A) (l : list A) (i : nat) :
  (forall a, g (f a) = g a) -> map g (Arr.modify l i f) = map g l.
Proof.
  intro H. revert i. induction l as [|a l IH]; intros [|i]; simpl; auto.
  - now rewrite H.
  - now rewrite IH.
Qed.



Lemma set_modify {A : Type} (l : list A) (i : nat) (v : A) :
  Arr.set l i v = Arr.modify l i (fun _ => v).
Proof.
  revert i. induction l as [|a l IH]; intros [|i]; simpl; auto.
  now rewrite IH.
Qed.

Lemma set_nth_neq {A : Type} (l : list A) (i j : nat) (v : A) :
  i <> j -> nth_error (Arr.set l i v) j = nth_error l j.
Proof.
  revert i j. induction l as [|a l IH]; intros [|i] [|j] H; simpl; auto; try lia.
Qed.

(** ** Headers keep their position and month through year assignment *)

Lemma assignYear_x (hs : list Header.t) (yearItem : TextItem) :
  map Header.x (assignYear hs yearItem) = map Header.x hs.
Proof.
  unfold assignYear.
  destruct (closestIndex hs (transform4 yearItem)) as [i|]; [|reflexivity].
  now apply modify_map.
Qed.


Lemma assignYears_x (yearRow : list TextItem) (hs : list Header.t) :
  map Header.x (assignYears hs yearRow) = map Header.x hs.
Proof.
  unfold assignYears. revert hs.
  induction yearRow as [|item row IH]; intro hs; simpl; [reflexivity|].
  now rewrite IH, assignYear_x.
Qed.



Lemma mkHeaders_ascending (monthRow : list TextItem) :
  StronglySorted (fun a b => Header.x a <= Header.x b) (mkHeaders monthRow).
Proof. apply (sort_ascending Header.x). Qed.

Lemma StronglySorted_map {A B : Type} (f : A -> B) (R : B -> B -> Prop) (l : list A) :
  StronglySorted R (map f l) <-> StronglySorted (fun a b => R (f a) (f b)) l.
Proof.
  induction l as [|a l IH]; simpl.
  - split; constructor.
  - split; intro H; inversion H; subst; constructor;
      try (now apply IH); rewrite Forall_map in *; assumption.
Qed.

Lemma parsePaymentGrid_ascending (items : list TextItem) :
  StronglySorted (fun a b => Header.x a <= Header.x b) (headers (parsePaymentGrid items)).
Proof.
  unfold parsePaymentGrid.
  destruct items as [|item items']; [constructor|].
  destruct (find _ _) as [monthRow|]; [|constructor].
  destruct (find _ _) as [yearRow|]; [|constructor].
  cbn [headers].
  apply (StronglySorted_map Header.x Qle).
  rewrite assignYears_x.
  apply (StronglySorted_map Header.x Qle).
  apply mkHeaders_ascending.
Qed.

(** C7.  In every grid returned by [parsePaymentGrid] the headers are in
    non-decreasing order of [x]: for all indices [i < j],
    [headers[i].x <= headers[j].x]. *)
Theorem headers_nondecreasing (items : list TextItem) (i j : nat) (hi hj : Header.t) :
  (i < j)%nat ->
  nth_error (headers (parsePaymentGrid items)) i = Some hi ->
  nth_error (headers (parsePaymentGrid items)) j = Some hj ->
  Header.x hi <= Header.x hj.
Proof.
  intros Hij Hi Hj.
  exact (StronglySorted_nth _ _ (parsePaymentGrid_ascending items) i j hi hj Hij Hi Hj).
Qed.

Lemma headers_nondecreasing_witness :
  Header.x (Header.mk "Jan" 100 "2023") <= Header.x (Header.mk "Feb" 150 "2024").
Proof.
  apply (headers_nondecreasing unordered_window 0 1); [lia | reflexivity | reflexivity].
Defined.

(** ** The hard failure *)

Lemma filter_nil_iff {A : Type} (f : A -> bool) (l : list A) :
  filter f l = [] <-> forall a, In a l -> f a = false.
Proof.
  induction l as [|a l IH]; simpl.
  - intuition.
  - destruct (f a) eqn:E.
    + split; [discriminate|]. intro H. specialize (H a (or_introl eq_refl)). congruence.
    + rewrite IH. split; intros H b; [intros [<-|Hb]|]; auto.
Qed.

(** C2.  When no text item of the stream contains the sentinel phrase, the
    analysis throws the unsupported-document error: nothing is returned, so
    no account record and no partial result is produced. *)
Theorem no_marker_throws (textItems : list TextItem) :
  (forall item, In item textItems -> Str.includes (str item) sentinel = false) ->
  analyzeTextContent textItems = Throw unsupported
  /\ forall accounts, analyzeTextContent textItems <> Return accounts.
Proof.
  intro H.
  assert (E : paymentHistoryMarkers textItems = []) by (apply filter_nil_iff; exact H).
  unfold analyzeTextContent. rewrite E. simpl. split; [reflexivity|discriminate].
Qed.

Lemma no_marker_throws_witness :
  analyzeTextContent unordered_window = Throw unsupported
  /\ forall accounts, analyzeTextContent unordered_window <> Return accounts.
Proof.
  apply no_marker_throws.
  intros item H. simpl in H.
  repeat (destruct H as [<-|H]; [reflexivity|]). destruct H.
Defined.

(** ** Issue extraction *)

Lemma scan_statuses_benign (hs : list Header.t) (bureau : string)
  (statuses : list string) (index : nat) :
  (forall status, In status statuses -> benign status) ->
  scan_statuses hs bureau statuses index = [].
Proof.
  revert index. induction statuses as [|status statuses IH]; intros index H; simpl.
  - reflexivity.
  - rewrite IH by (intros; apply H; now right).
    unfold cell_issues.
    destruct (H status (or_introl eq_refl)) as [E|E]; rewrite E; reflexivity.
Qed.

Lemma get_In {V : Type} (o : list (string * V)) (k : string) (v : V) :
  Obj.get String.eqb o k = Some v -> In (k, v) o.
Proof.
  induction o as [|[k' v'] o IH]; simpl; [discriminate|].
  destruct (String.eqb_spec k k') as [->|N].
  - intro H. injection H as ->. now left.
  - intro H. right. now apply IH.
Qed.

Lemma flat_map_nil {A B : Type} (f : A -> list B) (l : list A) :
  (forall a, In a l -> f a = []) -> flat_map f l = [].
Proof.
  induction l as [|a l IH]; simpl; intro H; [reflexivity|].
  rewrite (H a (or_introl eq_refl)). apply IH. intros; apply H; now right.
Qed.

Lemma grid_issues_benign (grid : Grid) :
  (forall bureau statuses status,
      In (bureau, statuses) (data grid) -> In status statuses -> benign status) ->
  grid_issues grid = [].
Proof.
  intro H. unfold grid_issues.
  destruct (headers grid) as [|h hs]; [reflexivity|].
  apply flat_map_nil. intros bureau _.
  destruct (Obj.get String.eqb (data grid) bureau) as [statuses|] eqn:E; [|reflexivity].
  apply scan_statuses_benign. intros status Hs.
  apply (H bureau statuses status); [now apply get_In|exact Hs].
Qed.

Lemma has_issues_iff (acc : Account.t) :
  has_issues acc = true <-> Account.issues acc <> [].
Proof.
  unfold has_issues. destruct (Account.issues acc); simpl; split;
    intro H; try discriminate; try reflexivity. now contradiction H.
Qed.

(** C4.  The returned list is the list of the accounts of the markers, in the
    order in which the markers occur in the stream, restricted to the
    accounts with at least one issue; an account all of whose grid statuses
    are OK or empty has no issue and so is not returned. *)
Theorem accounts_with_issues_in_marker_order (textItems : list TextItem) :
  paymentHistoryMarkers textItems <> [] ->
  analyzeTextContent textItems
  = Return (filter has_issues
                   (map (markerAccount textItems) (filter is_marker textItems)))
  /\ (forall acc, has_issues acc = true <-> Account.issues acc <> [])
  /\ forall marker,
      (forall bureau statuses status,
          In (bureau, statuses) (data (parsePaymentGrid (gridItems textItems marker))) ->
          In status statuses -> benign status) ->
      Account.issues (markerAccount textItems marker) = []
      /\ forall accounts,
          analyzeTextContent textItems = Return accounts ->
          forall acc, In acc accounts -> Account.issues acc <> [].
Proof.
  intro Hm. split.
  - unfold analyzeTextContent.
    destruct (paymentHistoryMarkers textItems) as [|m ms] eqn:E; [congruence|].
    simpl List.length. simpl Nat.eqb. cbv iota.
    unfold paymentHistoryMarkers in E. now rewrite E.
  - split; [exact has_issues_iff|].
    intros marker H. split.
    + simpl. now apply grid_issues_benign.
    + intros accounts Hr acc Hacc. unfold analyzeTextContent in Hr.
      destruct (List.length (paymentHistoryMarkers textItems) =? 0)%nat; [discriminate|].
      injection Hr as <-. apply filter_In in Hacc. now apply has_issues_iff.
Qed.

Lemma accounts_with_issues_in_marker_order_witness :
  analyzeTextContent three_accounts
  = Return [ Account.mk "ACME BANK"
               [ Issue.mk "TransUnion" "Jan" "2023" (JStr "30 Days Late");
                 Issue.mk "Equifax" "Feb" "2024" (JStr "Chargeoff or Collection") ] ]
  /\ Account.issues (markerAccount three_accounts third_marker) = [].
Proof.
  destruct (accounts_with_issues_in_marker_order three_accounts) as (E & _ & H).
  - discriminate.
  - split; [rewrite E; reflexivity|].
    apply (H third_marker).
    intros bureau statuses status Hd Hs. vm_compute in Hd.
    destruct Hd as [Hd|[]]. injection Hd as <- <-.
    destruct Hs as [<-|[<-|[]]]; [left|right]; reflexivity.
Defined.

(** ** Status labels *)

Lemma status_label_unknown (code : string) :
  Obj.get String.eqb LEGEND code = None ->
  existsb (String.eqb code) Object_prototype = false ->
  status_label code = JStr ("Unknown Code: " ++ code).
Proof.
  intros H1 H2. unfold status_label, LEGEND_get. now rewrite H1, H2.
Qed.

Example status_label_XX : status_label "XX" = JStr "Unknown Code: XX".
Proof. reflexivity. Qed.

(** X22.  A cell that is not empty, not OK, not a key of the table and not the
    name of a member inherited from [Object.prototype] raises one issue,
    labelled [Unknown Code: ] followed by the trimmed cell. *)
Theorem cell_issues_unknown (hs : list Header.t) (bureau status : string) (index : nat) :
  Str.trim status <> "" ->
  Str.trim status <> "OK" ->
  Obj.get String.eqb LEGEND (Str.trim status) = None ->
  existsb (String.eqb (Str.trim status)) Object_prototype = false ->
  cell_issues hs bureau status index
  = [ Issue.mk bureau (Header.month (header_at hs index))
               (Header.year (header_at hs index))
               (JStr ("Unknown Code: " ++ Str.trim status)) ].
Proof.
  intros H1 H2 H3 H4. unfold cell_issues.
  apply String.eqb_neq in H1, H2. rewrite H1, H2. cbn [negb andb].
  now rewrite status_label_unknown.
Qed.

(** C5.  A cell whose trimmed text is [constructor] is non-empty, is not OK
    and is not a key of the status-code table, yet the issue emitted for it
    does not carry the label [Unknown Code: constructor]: [LEGEND] is a plain
    object, the lookup finds the member inherited from [Object.prototype],
    and that value is stored as the status. *)
Theorem inherited_member_is_not_labelled_unknown :
  Obj.get String.eqb LEGEND "constructor" = None
  /\ analyzeTextContent sample_inherited
     = Return [ Account.mk "Unknown Account"
                  [ Issue.mk "TransUnion" "Jan" "2023" (JInherited "constructor") ] ]
  /\ JInherited "constructor" <> JStr ("Unknown Code: " ++ "constructor").
Proof.
  split; [reflexivity|]. split; [reflexivity|discriminate].
Qed.

(** ** Account names *)







(** ** The nearest-column scan *)


Lemma closestIndex_nil (px : Q) : closestIndex [] px = None.
Proof. reflexivity. Qed.









(** ** Writes by index: the last write to a cell wins *)

Section LastWrite.
Context {A B : Type} (idx : A -> option nat) (upd : A -> B -> B).



Lemma writes_length (items : list A) (l : list B) :
  List.length (fold_left (write idx upd) items l) = List.length l.
Proof.
  revert l. induction items as [|a items IH]; intro l; simpl; [reflexivity|].
  rewrite IH. unfold write. destruct (idx a) as [j|]; [|reflexivity].
  rewrite <- (length_map (fun _ => tt)), modify_map by reflexivity.
  apply length_map.
Qed.


End LastWrite.

(** ** Year assignment *)








(** ** Bureau decoding *)

Lemma decodeRow_writes (hs : list Header.t) (statusItems : list TextItem) :
  decodeRow hs statusItems
  = fold_left (write (fun it => closestIndex hs (transform4 it))
                     (fun it _ => Str.trim (str it)))
              statusItems (repeat "" (List.length hs)).
Proof.
  unfold decodeRow.
  generalize (repeat "" (List.length hs)).
  induction statusItems as [|item items IH]; intro l; simpl; [reflexivity|].
  rewrite IH. f_equal. unfold assignStatus, write.
  destruct (closestIndex hs (transform4 item)); [apply set_modify|reflexivity].
Qed.

Lemma decodeRow_length (hs : list Header.t) (statusItems : list TextItem) :
  List.length (decodeRow hs statusItems) = List.length hs.
Proof.
  rewrite decodeRow_writes, writes_length. apply repeat_length.
Qed.





(** ** Lists *)

Lemma filter_map_comm {A B : Type} (f : A -> B) (p : B -> bool) (l : list A) :
  filter p (map f l) = map f (filter (fun a => p (f a)) l).
Proof.
  induction l as [|a l IH]; simpl; [reflexivity|].
  destruct (p (f a)); simpl; now rewrite IH.
Qed.

(** ** Rows *)

Lemma rows_push_Forall (P : TextItem -> Prop) (rows : list (Z * list TextItem))
  (y : Z) (item : TextItem) :
  P item ->
  Forall (fun r => Forall P (snd r)) rows ->
  Forall (fun r => Forall P (snd r)) (rows_push rows y item).
Proof.
  intros Hi. induction 1 as [|[y' row] rows Hr Hrows IH]; simpl.
  - repeat constructor. exact Hi.
  - destruct (y =? y')%Z; constructor; auto.
    simpl in *. apply Forall_app. split; [exact Hr|]. now constructor.
Qed.

Lemma group_rows_Forall (P : TextItem -> Prop) (items : list TextItem) :
  Forall P items -> Forall (fun r => Forall P (snd r)) (group_rows items).
Proof.
  unfold group_rows.
  assert (G : forall rows,
             Forall P items ->
             Forall (fun r => Forall P (snd r)) rows ->
             Forall (fun r => Forall P (snd r))
                    (fold_left (fun rows item =>
                                  rows_push rows (Num.round (transform5 item)) item)
                               items rows)).
  { induction items as [|item items IH]; intros rows Hi Hr; simpl; [exact Hr|].
    inversion Hi; subst. apply IH; [assumption|]. now apply rows_push_Forall. }
  intro H. apply G; [exact H|constructor].
Qed.

Lemma Object_values_In (rows : list (Z * list TextItem)) (row : list TextItem) :
  In row (Object_values rows) <-> In row (map snd rows).
Proof.
  unfold Object_values. rewrite !in_map_iff.
  split; intros (r & E & H); exists r; (split; [exact E|]).
  - apply in_app_or in H. destruct H as [H|H].
    + apply sort_In, filter_In in H. tauto.
    + apply filter_In in H. tauto.
  - apply in_or_app. destruct (is_array_index (fst r)) eqn:A.
    + left. apply sort_In, filter_In. now split.
    + right. apply filter_In. split; [exact H|]. now rewrite A.
Qed.

Lemma sortedRows_In (items : list TextItem) (row : list TextItem) :
  In row (sortedRows items) <-> In row (map snd (group_rows items)).
Proof.
  unfold sortedRows. now rewrite sort_In, Object_values_In.
Qed.

(** Every item of every row is an item of the window. *)
Lemma sortedRows_items (P : TextItem -> Prop) (items : list TextItem) :
  Forall P items -> Forall (Forall P) (sortedRows items).
Proof.
  intro H. apply Forall_forall. intros row Hrow.
  apply sortedRows_In, in_map_iff in Hrow. destruct Hrow as (r & <- & Hr).
  pose proof (group_rows_Forall P items H) as G.
  rewrite Forall_forall in G. now apply G.
Qed.

Lemma find_row_none (p : TextItem -> bool) (items : list TextItem) :
  (forall item, In item items -> p item = false) ->
  find (existsb p) (sortedRows items) = None.
Proof.
  intro H.
  assert (F : Forall (fun item => p item = false) items) by now apply Forall_forall.
  apply sortedRows_items in F.
  induction F as [|row rows Hrow _ IH]; simpl; [reflexivity|].
  replace (existsb p row) with false; [exact IH|].
  symmetry. induction Hrow as [|item row Hi _ IHr]; simpl; [reflexivity|].
  now rewrite Hi, IHr.
Qed.

Lemma find_unique {A : Type} (p : A -> bool) (l : list A) (a : A) :
  In a l -> p a = true ->
  (forall b, In b l -> p b = true -> b = a) ->
  find p l = Some a.
Proof.
  induction l as [|c l IH]; intros Hin Ha Hu; [destruct Hin|]. simpl.
  destruct (p c) eqn:E.
  - f_equal. apply Hu; [now left|exact E].
  - destruct Hin as [->|Hin]; [congruence|].
    apply IH; auto. intros b Hb. apply Hu. now right.
Qed.

Lemma find_absent {A : Type} (p : A -> bool) (l : list A) :
  (forall b, In b l -> p b = false) -> find p l = None.
Proof.
  induction l as [|c l IH]; intro H; simpl; [reflexivity|].
  rewrite (H c (or_introl eq_refl)). apply IH. intros; apply H; now right.
Qed.

(** ** The soft failure *)

Lemma parsePaymentGrid_soft (items : list TextItem) :
  (forall item, In item items -> is_month_item item = false)
  \/ (forall item, In item items -> is_year_item item = false) ->
  parsePaymentGrid items = emptyGrid.
Proof.
  intro H. unfold parsePaymentGrid.
  destruct items as [|item items']; [reflexivity|].
  destruct H as [H|H]; rewrite (find_row_none _ _ H); [reflexivity|].
  now destruct (find _ _).
Qed.

Lemma analyze_returns (textItems : list TextItem) :
  paymentHistoryMarkers textItems <> [] ->
  analyzeTextContent textItems
  = Return (filter has_issues
              (map (markerAccount textItems) (paymentHistoryMarkers textItems))).
Proof.
  intro H. unfold analyzeTextContent.
  destruct (paymentHistoryMarkers textItems); [congruence|reflexivity].
Qed.

(** C3.  A marker whose grid window holds no month item, or no two-digit
    item, has no month row or no year row: its grid is the empty grid and its
    account has no issue.  The analysis still returns, with the accounts of
    the other markers; with two markers, the second without a year row and
    the first with an issue, exactly the account of the first is returned. *)
Theorem soft_failure_skips_marker (textItems : list TextItem) (marker : TextItem) :
  (forall item, In item (gridItems textItems marker) -> is_month_item item = false)
  \/ (forall item, In item (gridItems textItems marker) -> is_year_item item = false) ->
  parsePaymentGrid (gridItems textItems marker) = mkGrid [] []
  /\ Account.issues (markerAccount textItems marker) = []
  /\ (forall before after,
        paymentHistoryMarkers textItems = before ++ marker :: after ->
        analyzeTextContent textItems
        = Return (filter has_issues (map (markerAccount textItems) before)
                  ++ filter has_issues (map (markerAccount textItems) after)))
  /\ (forall first,
        paymentHistoryMarkers textItems = [first; marker] ->
        Account.issues (markerAccount textItems first) <> [] ->
        analyzeTextContent textItems = Return [markerAccount textItems first]).
Proof.
  intro H. pose proof (parsePaymentGrid_soft _ H) as E.
  assert (I : Account.issues (markerAccount textItems marker) = [])
    by (simpl; now rewrite E).
  assert (N : has_issues (markerAccount textItems marker) = false)
    by (unfold has_issues; now rewrite I).
  split; [exact E|]. split; [exact I|]. split.
  - intros before after Hm. rewrite analyze_returns by (rewrite Hm; now destruct before).
    rewrite Hm, map_app, filter_app. cbn [map filter]. now rewrite N.
  - intros first Hm Hf. rewrite analyze_returns by (rewrite Hm; discriminate).
    rewrite Hm. cbn [map filter]. rewrite N.
    apply has_issues_iff in Hf. now rewrite Hf.
Qed.

Lemma soft_failure_skips_marker_witness :
  parsePaymentGrid (gridItems two_accounts second_marker) = mkGrid [] []
  /\ Account.issues (markerAccount two_accounts second_marker) = []
  /\ analyzeTextContent two_accounts = Return [markerAccount two_accounts first_marker].
Proof.
  destruct (soft_failure_skips_marker two_accounts second_marker) as (E & I & _ & H).
  - right. intros item Hi. vm_compute in Hi.
    repeat (destruct Hi as [<-|Hi]; [reflexivity|]). destruct Hi.
  - split; [exact E|]. split; [exact I|].
    apply H; [reflexivity|discriminate].
Defined.

Lemma rows_push_covers (rows : list (Z * list TextItem)) (y : Z) (item other : TextItem) :
  other = item \/ (exists r, In r rows /\ In other (snd r)) ->
  exists r, In r (rows_push rows y item) /\ In other (snd r).
Proof.
  induction rows as [|[y' row] rows IH]; simpl; intros [->|(r & Hr & Ho)].
  - exists (y, [item]). simpl. auto.
  - destruct Hr.
  - destruct (y =? y')%Z.
    + exists (y', row ++ [item]). simpl. split; [now left|].
      apply in_or_app. right. now left.
    + destruct IH as (r & Hr & Ho); [now left|]. exists r. simpl. auto.
  - destruct (y =? y')%Z.
    + destruct Hr as [<-|Hr].
      * exists (y', row ++ [item]). simpl. split; [now left|].
        apply in_or_app. now left.
      * exists r. simpl. auto.
    + destruct Hr as [<-|Hr].
      * exists (y', row). simpl. auto.
      * destruct IH as (r' & Hr' & Ho'); [right; eauto|]. exists r'. simpl. auto.
Qed.

(** Every item of the window is in a row. *)
Lemma sortedRows_covers (items : list TextItem) (item : TextItem) :
  In item items -> exists row, In row (sortedRows items) /\ In item row.
Proof.
  assert (G : forall l rows,
             In item l \/ (exists r, In r rows /\ In item (snd r)) ->
             exists r,
               In r (fold_left (fun rows it =>
                                  rows_push rows (Num.round (transform5 it)) it)
                               l rows)
               /\ In item (snd r)).
  { induction l as [|it l IH]; intros rows H; simpl.
    - destruct H as [[]|H]. exact H.
    - apply IH. destruct H as [[<-|H]|H].
      + right. apply rows_push_covers. now left.
      + now left.
      + right. apply rows_push_covers. now right. }
  intro Hin. destruct (G items [] (or_introl Hin)) as (r & Hr & Hi).
  exists (snd r). split; [|exact Hi].
  apply sortedRows_In, in_map. exact Hr.
Qed.

(** A class of rows is absent exactly when no item of the window is of that
    class. *)
Lemma find_row_none_iff (p : TextItem -> bool) (items : list TextItem) :
  find (existsb p) (sortedRows items) = None
  <-> forall item, In item items -> p item = false.
Proof.
  split; [|apply find_row_none].
  intros H item Hin.
  destruct (sortedRows_covers items item Hin) as (row & Hrow & Hi).
  pose proof (find_none _ _ H row Hrow) as E.
  destruct (p item) eqn:P; [|reflexivity].
  rewrite <- E. symmetry. apply existsb_exists. now exists item.
Qed.

(** * Further properties of the grid parser *)

(** ** Sorting is a permutation *)

Lemma insert_Permutation {A : Type} (cmp : A -> A -> Q) (a : A) (l : list A) :
  Permutation (Arr.insert cmp a l) (a :: l).
Proof.
  induction l as [|b l IH]; simpl; [reflexivity|].
  destruct (Num.lt 0 (cmp a b)); [|reflexivity].
  rewrite IH. apply perm_swap.
Qed.

Lemma sort_Permutation {A : Type} (cmp : A -> A -> Q) (l : list A) :
  Permutation (Arr.sort cmp l) l.
Proof.
  induction l as [|a l IH]; simpl; [reflexivity|].
  rewrite insert_Permutation. now constructor.
Qed.

Lemma sort_ext {A : Type} (cmp cmp' : A -> A -> Q) (l : list A) :
  (forall a b, Num.lt 0 (cmp' a b) = Num.lt 0 (cmp a b)) ->
  Arr.sort cmp' l = Arr.sort cmp l.
Proof.
  intro H. induction l as [|a l IH]; simpl; [reflexivity|].
  rewrite IH. generalize (Arr.sort cmp l). intro s.
  induction s as [|b s IHs]; simpl; [reflexivity|].
  now rewrite H, IHs.
Qed.

Lemma filter_partition_Permutation {A : Type} (p : A -> bool) (l : list A) :
  Permutation (filter p l ++ filter (fun a => negb (p a)) l) l.
Proof.
  induction l as [|a l IH]; simpl; [reflexivity|].
  destruct (p a); simpl.
  - now constructor.
  - rewrite <- Permutation_middle. now constructor.
Qed.

Lemma Object_values_Permutation (rows : list (Z * list TextItem)) :
  Permutation (Object_values rows) (map snd rows).
Proof.
  unfold Object_values. apply Permutation_map.
  rewrite sort_Permutation. apply filter_partition_Permutation.
Qed.

Lemma sortedRows_Permutation (items : list TextItem) :
  Permutation (sortedRows items) (map snd (group_rows items)).
Proof.
  unfold sortedRows. rewrite sort_Permutation. apply Object_values_Permutation.
Qed.

(** ** Row clustering *)

Lemma cluster_app (k : Z) (l1 l2 : list TextItem) :
  cluster k (l1 ++ l2) = cluster k l1 ++ cluster k l2.
Proof. apply filter_app. Qed.

Lemma cluster_nil_iff (k : Z) (items : list TextItem) :
  cluster k items = [] <-> forall item, In item items -> item_key item <> k.
Proof.
  unfold cluster. rewrite filter_nil_iff.
  split; intros H item Hi; specialize (H item Hi).
  - now apply Z.eqb_neq.
  - now apply Z.eqb_neq.
Qed.

Lemma rows_push_keys (rows : list (Z * list TextItem)) (y : Z) (item : TextItem) :
  map fst (rows_push rows y item)
  = if existsb (Z.eqb y) (map fst rows) then map fst rows else map fst rows ++ [y].
Proof.
  induction rows as [|[y' row] rows IH]; simpl; [reflexivity|].
  destruct (y =? y')%Z; simpl; [reflexivity|].
  rewrite IH. now destruct (existsb (Z.eqb y) (map fst rows)).
Qed.

Lemma existsb_eqb_In (y : Z) (l : list Z) : existsb (Z.eqb y) l = true <-> In y l.
Proof.
  rewrite existsb_exists. split.
  - intros (k & Hk & E). apply Z.eqb_eq in E. now subst.
  - intro H. exists y. split; [exact H|apply Z.eqb_refl].
Qed.

Lemma rows_push_NoDup (rows : list (Z * list TextItem)) (y : Z) (item : TextItem) :
  NoDup (map fst rows) -> NoDup (map fst (rows_push rows y item)).
Proof.
  intro H. rewrite rows_push_keys.
  destruct (existsb (Z.eqb y) (map fst rows)) eqn:E; [exact H|].
  apply NoDup_app; [exact H|repeat constructor; intros []|].
  intros k Hk [<-|[]]. apply existsb_eqb_In in Hk. congruence.
Qed.

Lemma rows_push_key_In (rows : list (Z * list TextItem)) (y k : Z) (item : TextItem) :
  k = y \/ In k (map fst rows) -> In k (map fst (rows_push rows y item)).
Proof.
  rewrite rows_push_keys. intros [->|H].
  - destruct (existsb (Z.eqb y) (map fst rows)) eqn:E.
    + now apply existsb_eqb_In.
    + apply in_or_app. right. now left.
  - destruct (existsb (Z.eqb y) (map fst rows)); [exact H|].
    apply in_or_app. now left.
Qed.

Lemma rows_push_rows_of (seen : list TextItem) (rows : list (Z * list TextItem))
  (item : TextItem) :
  NoDup (map fst rows) ->
  rows_of seen rows ->
  (In (item_key item) (map fst rows) \/ cluster (item_key item) seen = []) ->
  rows_of (seen ++ [item]) (rows_push rows (item_key item) item).
Proof.
  unfold rows_of.
  induction rows as [|[y' row] rows IH]; intros Hnd Hok Hkey; simpl.
  - constructor; [|constructor]. simpl. split; [|discriminate].
    rewrite cluster_app. destruct Hkey as [[]| ->].
    unfold cluster. simpl. now rewrite Z.eqb_refl.
  - inversion Hnd as [|? ? Hnot Hnd']; subst.
    inversion Hok as [|? ? [Hrow Hne] Hok']; subst. simpl in Hrow, Hne.
    destruct (Z.eqb_spec (item_key item) y') as [E|N].
    + constructor.
      * simpl. split.
        -- rewrite cluster_app, <- Hrow. unfold cluster. simpl.
           now rewrite E, Z.eqb_refl.
        -- destruct row; discriminate.
      * rewrite Forall_forall in Hok' |- *. intros r Hr.
        destruct (Hok' r Hr) as [Hr1 Hr2]. split; [|exact Hr2].
        rewrite cluster_app, <- Hr1. unfold cluster. simpl.
        replace (item_key item =? fst r)%Z with false; [now rewrite app_nil_r|].
        symmetry. apply Z.eqb_neq. intro F. apply Hnot.
        rewrite <- E, F. now apply in_map.
    + constructor.
      * simpl. split; [|exact Hne].
        rewrite cluster_app, <- Hrow. unfold cluster. simpl.
        apply Z.eqb_neq in N. now rewrite N, app_nil_r.
      * apply IH; [exact Hnd'|exact Hok'|].
        destruct Hkey as [[F|H]|H]; [simpl in F; congruence|now left|now right].
Qed.

(** The rows built from a window: one per rounded y, holding the items of
    that rounded y in their order in the window. *)
Lemma group_rows_clusters (items : list TextItem) :
  NoDup (map fst (group_rows items))
  /\ rows_of items (group_rows items)
  /\ forall item, In item items -> In (item_key item) (map fst (group_rows items)).
Proof.
  unfold group_rows.
  assert (G : forall l seen rows,
             NoDup (map fst rows) ->
             rows_of seen rows ->
             (forall item, In item seen -> In (item_key item) (map fst rows)) ->
             let rows' := fold_left (fun rows item =>
                                       rows_push rows (Num.round (transform5 item)) item)
                                    l rows in
             NoDup (map fst rows')
             /\ rows_of (seen ++ l) rows'
             /\ forall item, In item (seen ++ l) -> In (item_key item) (map fst rows')).
  { induction l as [|item l IH]; intros seen rows Hnd Hok Hcov; simpl.
    - rewrite app_nil_r. auto.
    - replace (seen ++ item :: l) with ((seen ++ [item]) ++ l)
        by (now rewrite <- app_assoc).
      apply IH.
      + now apply rows_push_NoDup.
      + apply rows_push_rows_of; [exact Hnd|exact Hok|].
        destruct (in_dec Z.eq_dec (item_key item) (map fst rows)) as [H|H];
          [now left|right].
        apply cluster_nil_iff. intros it Hit E. apply H. rewrite <- E. now apply Hcov.
      + intros it Hit. apply rows_push_key_In.
        apply in_app_or in Hit. destruct Hit as [Hit|[<-|[]]]; [right|now left].
        now apply Hcov. }
  apply (G items [] []); [constructor|constructor|intros item []].
Qed.

Lemma cluster_row_key (k : Z) (items : list TextItem) :
  cluster k items <> [] -> row_key (cluster k items) = k.
Proof.
  unfold row_key, row_y. intro H.
  destruct (cluster k items) as [|item row] eqn:E; [congruence|].
  assert (Hin : In item (cluster k items)) by (rewrite E; now left).
  apply filter_In in Hin. now apply Z.eqb_eq.
Qed.

Lemma group_rows_row_key (items : list TextItem) (r : Z * list TextItem) :
  In r (group_rows items) -> row_key (snd r) = fst r.
Proof.
  intro Hr. destruct (group_rows_clusters items) as (_ & Hok & _).
  unfold rows_of in Hok. rewrite Forall_forall in Hok.
  destruct (Hok r Hr) as [E Hne]. rewrite E in Hne |- *.
  now apply cluster_row_key.
Qed.

Lemma sortedRows_clusters (items : list TextItem) (row : list TextItem) :
  In row (sortedRows items)
  <-> exists item, In item items /\ row = cluster (item_key item) items.
Proof.
  rewrite sortedRows_In, in_map_iff.
  destruct (group_rows_clusters items) as (Hnd & Hok & Hcov).
  unfold rows_of in Hok. rewrite Forall_forall in Hok.
  split.
  - intros (r & <- & Hr). destruct (Hok r Hr) as [E Hne].
    destruct (snd r) as [|item rest] eqn:Es; [congruence|].
    assert (Hin : In item (cluster (fst r) items)) by (rewrite <- E; now left).
    apply filter_In in Hin. destruct Hin as [Hin Hk]. apply Z.eqb_eq in Hk.
    exists item. split; [exact Hin|]. now rewrite Hk.
  - intros (item & Hin & ->).
    specialize (Hcov item Hin). apply in_map_iff in Hcov.
    destruct Hcov as (r & Hk & Hr). exists r. split; [|exact Hr].
    destruct (Hok r Hr) as [E _]. now rewrite E, Hk.
Qed.

(** X1.  The rows of a window are exactly its clusters: a list is a row
    when it collects, in window order, the items whose y rounds to the same
    integer as some item of the window. *)
Theorem rows_are_clusters (items : list TextItem) (row : list TextItem) :
  In row (sortedRows items)
  <-> exists item, In item items /\ row = cluster (item_key item) items.
Proof.
  rewrite sortedRows_In, in_map_iff.
  destruct (group_rows_clusters items) as (Hnd & Hok & Hcov).
  unfold rows_of in Hok. rewrite Forall_forall in Hok.
  split.
  - intros (r & <- & Hr). destruct (Hok r Hr) as [E Hne].
    destruct (snd r) as [|item rest] eqn:Es; [congruence|].
    assert (Hin : In item (cluster (fst r) items)) by (rewrite <- E; now left).
    apply filter_In in Hin. destruct Hin as [Hin Hk]. apply Z.eqb_eq in Hk.
    exists item. split; [exact Hin|]. now rewrite Hk.
  - intros (item & Hin & ->).
    specialize (Hcov item Hin). apply in_map_iff in Hcov.
    destruct Hcov as (r & Hk & Hr). exists r. split; [|exact Hr].
    destruct (Hok r Hr) as [E _]. now rewrite E, Hk.
Qed.

Lemma StronglySorted_weaken {A : Type} (R R' : A -> A -> Prop) (l : list A) :
  StronglySorted R l -> (forall a b, R a b -> R' a b) -> StronglySorted R' l.
Proof.
  intros S H. induction S as [|a l S IH F]; constructor; [exact IH|].
  eapply Forall_impl; [|exact F]. intros b. apply H.
Qed.

Lemma round_le (a b : Q) : a <= b -> (Num.round a <= Num.round b)%Z.
Proof.
  intro H. unfold Num.round. apply Qfloor_resp_le. now apply Qplus_le_l.
Qed.

Lemma sortedRows_keys_NoDup (items : list TextItem) :
  NoDup (map row_key (sortedRows items)).
Proof.
  apply (Permutation_NoDup (l := map row_key (map snd (group_rows items)))).
  - symmetry. apply Permutation_map. apply sortedRows_Permutation.
  - rewrite map_map.
    destruct (group_rows_clusters items) as (Hnd & _ & _).
    erewrite map_ext_in; [exact Hnd|].
    intros r Hr. exact (group_rows_row_key items r Hr).
Qed.

Lemma sortedRows_by_y (items : list TextItem) :
  StronglySorted (fun a b => row_y b <= row_y a) (sortedRows items).
Proof.
  unfold sortedRows.
  rewrite (sort_ext (fun a b => (- row_y a) - (- row_y b))).
  - pose proof (sort_ascending (fun r => - row_y r)
                  (Object_values (group_rows items))) as S.
    eapply StronglySorted_weaken; [exact S|].
    intros a b H. unfold ascending_by in H.
    apply Qopp_le_compat in H. now rewrite !Qopp_involutive in H.
  - intros a b. apply lt_compat; [reflexivity|ring].
Qed.

Lemma StronglySorted_strict {A : Type} (key : A -> Z) (l : list A) :
  NoDup (map key l) ->
  StronglySorted (fun a b => (key b <= key a)%Z) l ->
  StronglySorted (fun a b => (key b < key a)%Z) l.
Proof.
  induction l as [|a l IH]; intros Hnd Hs; [constructor|].
  inversion Hnd as [|? ? Hnot Hnd']; subst.
  inversion Hs as [|? ? Hs' Ha]; subst.
  constructor; [now apply IH|].
  rewrite Forall_forall in Ha |- *. intros b Hb.
  specialize (Ha b Hb).
  assert (key b <> key a) by (intro E; apply Hnot; rewrite <- E; now apply in_map).
  lia.
Qed.

Lemma sortedRows_descending (items : list TextItem) :
  StronglySorted (fun upper lower => (row_key lower < row_key upper)%Z)
                 (sortedRows items).
Proof.
  apply StronglySorted_strict; [apply sortedRows_keys_NoDup|].
  eapply StronglySorted_weaken; [apply sortedRows_by_y|].
  intros a b H. now apply round_le.
Qed.

(** X2.  The rows are ordered from the top of the page down: the rounded y
    of the rows is strictly decreasing along [sortedRows], whatever the order
    in which the keys of [rows] are enumerated. *)
Theorem rows_strictly_descending (items : list TextItem) :
  StronglySorted (fun upper lower => (row_key lower < row_key upper)%Z)
                 (sortedRows items).
Proof.
  apply StronglySorted_strict; [apply sortedRows_keys_NoDup|].
  eapply StronglySorted_weaken; [apply sortedRows_by_y|].
  intros a b H. now apply round_le.
Qed.

Lemma rows_push_concat (rows : list (Z * list TextItem)) (y : Z) (item : TextItem) :
  Permutation (List.concat (map snd (rows_push rows y item)))
              (item :: List.concat (map snd rows)).
Proof.
  induction rows as [|[y' row] rows IH]; simpl; [reflexivity|].
  destruct (y =? y')%Z; simpl.
  - rewrite <- app_assoc. simpl. symmetry. apply Permutation_middle.
  - rewrite IH. symmetry. apply Permutation_middle.
Qed.

Lemma Permutation_concat {A : Type} (l l' : list (list A)) :
  Permutation l l' -> Permutation (List.concat l) (List.concat l').
Proof.
  induction 1; simpl.
  - reflexivity.
  - now apply Permutation_app_head.
  - rewrite !app_assoc. apply Permutation_app_tail, Permutation_app_comm.
  - etransitivity; eauto.
Qed.

(** X3.  Row clustering loses and duplicates nothing: the items of the rows,
    taken together, are the items of the window. *)
Theorem rows_partition_window (items : list TextItem) :
  Permutation (List.concat (sortedRows items)) items.
Proof.
  rewrite (Permutation_concat _ _ (sortedRows_Permutation items)).
  unfold group_rows.
  assert (G : forall l rows,
             Permutation
               (List.concat (map snd (fold_left
                                   (fun rows item =>
                                      rows_push rows (Num.round (transform5 item)) item)
                                   l rows)))
               (List.concat (map snd rows) ++ l)).
  { induction l as [|item l IH]; intro rows; simpl.
    - now rewrite app_nil_r.
    - rewrite IH, rows_push_concat. apply Permutation_middle. }
  apply (G items []).
Qed.

Lemma find_split {A : Type} (p : A -> bool) (l : list A) (a : A) :
  find p l = Some a ->
  exists pre post, l = pre ++ a :: post /\ p a = true
                   /\ forall b, In b pre -> p b = false.
Proof.
  induction l as [|c l IH]; simpl; [discriminate|].
  destruct (p c) eqn:E.
  - intro H. injection H as <-. exists [], l. repeat split; auto. intros b [].
  - intro H. destruct (IH H) as (pre & post & -> & Ha & Hpre).
    exists (c :: pre), post. repeat split; auto.
    intros b [<-|Hb]; auto.
Qed.

Lemma StronglySorted_app_inv {A : Type} (R : A -> A -> Prop) (l1 l2 : list A) :
  StronglySorted R (l1 ++ l2) ->
  StronglySorted R l2 /\ forall a b, In a l1 -> In b l2 -> R a b.
Proof.
  induction l1 as [|c l1 IH]; simpl; intro H.
  - split; [exact H|]. intros a b [].
  - inversion H as [|? ? H' Hc]; subst. destruct (IH H') as [S2 H12].
    split; [exact S2|]. intros a b [<-|Ha] Hb.
    + rewrite Forall_forall in Hc. apply Hc. apply in_or_app. now right.
    + now apply H12.
Qed.

(** X4.  A class of rows (month, year, a bureau) is represented by its
    topmost row: the row found holds an item of the class, and every item of
    the class in the window lies in that row or in a lower one. *)
Theorem class_row_is_topmost (p : TextItem -> bool) (items row : list TextItem) :
  find (existsb p) (sortedRows items) = Some row ->
  In row (sortedRows items)
  /\ (exists item, In item row /\ p item = true)
  /\ forall item, In item items -> p item = true ->
                  (item_key item < row_key row)%Z \/ In item row.
Proof.
  intro H. destruct (find_split _ _ _ H) as (pre & post & E & Hp & Hpre).
  assert (Hin : In row (sortedRows items))
    by (rewrite E; apply in_or_app; right; now left).
  split; [exact Hin|]. split; [now apply existsb_exists|].
  intros item Hi Pi.
  destruct (sortedRows_covers items item Hi) as (row' & Hrow' & Hi').
  assert (K : row_key row' = item_key item).
  { apply sortedRows_clusters in Hrow'. destruct Hrow' as (it & Hit & ->).
    apply filter_In in Hi'. destruct Hi' as [_ Hk]. apply Z.eqb_eq in Hk.
    rewrite cluster_row_key; [now symmetry|].
    intro F. apply (proj1 (cluster_nil_iff _ _) F it Hit). reflexivity. }
  pose proof (sortedRows_descending items) as S. rewrite E in S.
  rewrite E in Hrow'. apply in_app_or in Hrow'.
  destruct Hrow' as [Hrow'|[<-|Hrow']].
  - exfalso. specialize (Hpre row' Hrow').
    assert (T : existsb p row' = true) by (apply existsb_exists; eauto).
    congruence.
  - now right.
  - left. rewrite <- K.
    apply StronglySorted_app_inv in S. destruct S as [S _].
    inversion S as [|? ? _ F]; subst. rewrite Forall_forall in F. now apply F.
Qed.

Lemma class_row_is_topmost_witness :
  In [mkItem "23" 1 101 460; mkItem "24" 1 149 460] (sortedRows unordered_window)
  /\ (exists item, In item [mkItem "23" 1 101 460; mkItem "24" 1 149 460]
                   /\ is_year_item item = true)
  /\ forall item, In item unordered_window -> is_year_item item = true ->
                  (item_key item < row_key [mkItem "23" 1 101 460; mkItem "24" 1 149 460])%Z
                  \/ In item [mkItem "23" 1 101 460; mkItem "24" 1 149 460].
Proof.
  apply (class_row_is_topmost is_year_item unordered_window). reflexivity.
Defined.

(** ** The shape of a grid *)

Lemma set_obj_Forall {V : Type} (P : string * V -> Prop) (o : list (string * V))
  (k : string) (v : V) :
  Forall P o -> (forall k', P (k', v)) -> Forall P (Obj.set String.eqb o k v).
Proof.
  intros Ho Hv. induction Ho as [|[k' v'] o Hk Ho IH]; simpl.
  - constructor; [apply Hv|constructor].
  - destruct (String.eqb k k'); constructor; auto.
Qed.

Lemma processBureauRow_Forall (P : string * list string -> Prop) (hs : list Header.t)
  (data : list (string * list string)) (bureauRow : option (list TextItem))
  (bureauName : string) :
  Forall P data ->
  (forall k statusItems, P (k, decodeRow hs statusItems)) ->
  Forall P (processBureauRow hs data bureauRow bureauName).
Proof.
  intros Hd Hv. destruct bureauRow as [row|]; simpl; [|exact Hd].
  apply set_obj_Forall; [exact Hd|]. intro k. apply Hv.
Qed.

Lemma parsePaymentGrid_data_Forall (P : list Header.t -> string * list string -> Prop)
  (items : list TextItem) :
  (forall hs k statusItems, P hs (k, decodeRow hs statusItems)) ->
  Forall (P (headers (parsePaymentGrid items))) (data (parsePaymentGrid items)).
Proof.
  intro H. unfold parsePaymentGrid.
  destruct items as [|item items']; [constructor|].
  destruct (find _ _) as [monthRow|]; [|constructor].
  destruct (find _ _) as [yearRow|]; [|constructor].
  cbn [headers data].
  repeat apply processBureauRow_Forall; try constructor; intros; apply H.
Qed.

Lemma data_length (items : list TextItem) (bureau : string)
  (statuses : list string) :
  In (bureau, statuses) (data (parsePaymentGrid items)) ->
  List.length statuses = List.length (headers (parsePaymentGrid items)).
Proof.
  intro H.
  pose proof (parsePaymentGrid_data_Forall
                (fun hs e => List.length (snd e) = List.length hs) items) as F.
  rewrite Forall_forall in F.
  apply (F (fun hs k statusItems => decodeRow_length hs statusItems) _ H).
Qed.

(** X5.  In every grid returned by [parsePaymentGrid], the status list of
    each bureau has exactly one entry per header. *)
Theorem statuses_match_headers (items : list TextItem) (bureau : string)
  (statuses : list string) :
  In (bureau, statuses) (data (parsePaymentGrid items)) ->
  List.length statuses = List.length (headers (parsePaymentGrid items)).
Proof.
  intro H.
  pose proof (parsePaymentGrid_data_Forall
                (fun hs e => List.length (snd e) = List.length hs) items) as F.
  rewrite Forall_forall in F.
  apply (F (fun hs k statusItems => decodeRow_length hs statusItems) _ H).
Qed.

Lemma statuses_match_headers_witness :
  List.length ["OK"; "CO"] = List.length (headers (parsePaymentGrid (gridItems three_accounts first_marker))).
Proof.
  apply (statuses_match_headers _ "Equifax"). vm_compute. right. now left.
Defined.

(** ** Trimmed strings *)

Lemma trimStart_head (s : string) :
  match Str.trimStart s with
  | EmptyString => True
  | String c _ => Str.is_space c = false
  end.
Proof.
  induction s as [|c s IH]; simpl; [exact I|].
  destruct (Str.is_space c) eqn:E; [exact IH|exact E].
Qed.

Lemma trimEnd_cons (c : ascii) (s : string) :
  Str.trimEnd (String c s)
  = match Str.trimEnd s with
    | EmptyString => if Str.is_space c then EmptyString else String c EmptyString
    | String d r => String c (String d r)
    end.
Proof. reflexivity. Qed.

Lemma trimEnd_fixed (s : string) : Str.trimEnd (Str.trimEnd s) = Str.trimEnd s.
Proof.
  induction s as [|c s IH]; [reflexivity|].
  rewrite trimEnd_cons.
  destruct (Str.trimEnd s) as [|d r] eqn:E.
  - destruct (Str.is_space c) eqn:Ec; [reflexivity|].
    rewrite trimEnd_cons. cbn [Str.trimEnd]. now rewrite Ec.
  - rewrite trimEnd_cons. now rewrite IH.
Qed.

Lemma trimEnd_head (c : ascii) (s : string) :
  Str.is_space c = false ->
  exists r, Str.trimEnd (String c s) = String c r.
Proof.
  intro H. rewrite trimEnd_cons. destruct (Str.trimEnd s); rewrite ?H; eauto.
Qed.

Lemma trim_idempotent (s : string) : Str.trim (Str.trim s) = Str.trim s.
Proof.
  unfold Str.trim.
  pose proof (trimStart_head s) as H.
  destruct (Str.trimStart s) as [|c t]; [reflexivity|].
  destruct (trimEnd_head c t H) as (r & E).
  rewrite E. cbn [Str.trimStart]. rewrite H, <- E. apply trimEnd_fixed.
Qed.

Lemma set_Forall {A : Type} (P : A -> Prop) (l : list A) (i : nat) (v : A) :
  Forall P l -> P v -> Forall P (Arr.set l i v).
Proof.
  intros Hl Hv. revert i. induction Hl as [|a l Ha Hl IH]; intros [|i]; simpl;
    constructor; auto.
Qed.

Lemma decodeRow_trimmed (hs : list Header.t) (statusItems : list TextItem) :
  Forall (fun status => Str.trim status = status) (decodeRow hs statusItems).
Proof.
  unfold decodeRow.
  assert (H0 : Forall (fun status => Str.trim status = status)
                      (repeat "" (List.length hs))).
  { apply Forall_forall. intros s Hs. apply repeat_spec in Hs. now subst. }
  revert H0. generalize (repeat "" (List.length hs)).
  induction statusItems as [|item items IH]; intros l Hl; simpl; [exact Hl|].
  apply IH. unfold assignStatus.
  destruct (closestIndex hs (transform4 item)); [|exact Hl].
  apply set_Forall; [exact Hl|apply trim_idempotent].
Qed.

Lemma data_trimmed (items : list TextItem) (bureau : string)
  (statuses : list string) (status : string) :
  In (bureau, statuses) (data (parsePaymentGrid items)) ->
  In status statuses ->
  Str.trim status = status.
Proof.
  intros H Hs.
  pose proof (parsePaymentGrid_data_Forall
                (fun _ e => Forall (fun status => Str.trim status = status) (snd e))
                items) as F.
  rewrite Forall_forall in F.
  specialize (F (fun hs k statusItems => decodeRow_trimmed hs statusItems) _ H).
  simpl in F. rewrite Forall_forall in F. now apply F.
Qed.

(** X6.  Every status stored in a grid is a trimmed string: trimming it
    again, as the issue scan does, changes nothing. *)
Theorem stored_statuses_are_trimmed (items : list TextItem) (bureau : string)
  (statuses : list string) (status : string) :
  In (bureau, statuses) (data (parsePaymentGrid items)) ->
  In status statuses ->
  Str.trim status = status.
Proof.
  intros H Hs.
  pose proof (parsePaymentGrid_data_Forall
                (fun _ e => Forall (fun status => Str.trim status = status) (snd e))
                items) as F.
  rewrite Forall_forall in F.
  specialize (F (fun hs k statusItems => decodeRow_trimmed hs statusItems) _ H).
  simpl in F. rewrite Forall_forall in F. now apply F.
Qed.

Lemma stored_statuses_are_trimmed_witness : Str.trim "CO" = "CO".
Proof.
  apply (stored_statuses_are_trimmed (gridItems three_accounts first_marker)
           "Equifax" ["OK"; "CO"]).
  - vm_compute. right. now left.
  - right. now left.
Defined.

(** ** Headers and bureaus of a grid *)

Lemma find_row_some_iff (p : TextItem -> bool) (items : list TextItem) :
  find (existsb p) (sortedRows items) <> None <-> existsb p items = true.
Proof.
  rewrite find_row_none_iff. rewrite existsb_exists. split.
  - intro H. destruct (existsb p items) eqn:E.
    + now apply existsb_exists.
    + exfalso. apply H. intros item Hi.
      destruct (p item) eqn:P; [|reflexivity].
      assert (existsb p items = true) by (apply existsb_exists; eauto). congruence.
  - intros (item & Hi & P) H. rewrite (H item Hi) in P. discriminate.
Qed.

Lemma parsePaymentGrid_rows (items monthRow yearRow : list TextItem) :
  find (existsb is_month_item) (sortedRows items) = Some monthRow ->
  find (existsb is_year_item) (sortedRows items) = Some yearRow ->
  parsePaymentGrid items
  = let rows := sortedRows items in
    let hs := assignYears (mkHeaders monthRow) yearRow in
    mkGrid hs
      (processBureauRow hs
         (processBureauRow hs
            (processBureauRow hs []
               (find (existsb (names_bureau "TransUnion")) rows) "TransUnion")
            (find (existsb (names_bureau "Experian")) rows) "Experian")
         (find (existsb (names_bureau "Equifax")) rows) "Equifax").
Proof.
  intros Hm Hy. unfold parsePaymentGrid.
  destruct items as [|item items']; [discriminate Hm|].
  now rewrite Hm, Hy.
Qed.

(** X7.  When the window holds a month item and a two-digit item, the grid
    has one status row for each bureau named by some item of the window, and
    for no other; the rows come in the order TransUnion, Experian, Equifax. *)
Theorem bureaus_of_grid (items : list TextItem) :
  existsb is_month_item items = true ->
  existsb is_year_item items = true ->
  Obj.keys (data (parsePaymentGrid items))
  = filter (fun bureauName => existsb (names_bureau bureauName) items) bureaus.
Proof.
  intros Hm Hy. apply find_row_some_iff in Hm, Hy.
  destruct (find (existsb is_month_item) (sortedRows items)) as [monthRow|] eqn:Em;
    [|congruence].
  destruct (find (existsb is_year_item) (sortedRows items)) as [yearRow|] eqn:Ey;
    [|congruence].
  rewrite (parsePaymentGrid_rows items monthRow yearRow Em Ey).
  cbn zeta. cbn [data bureaus filter].
  assert (K : forall name,
             existsb (names_bureau name) items
             = match find (existsb (names_bureau name)) (sortedRows items) with
               | Some _ => true
               | None => false
               end).
  { intro name.
    pose proof (find_row_some_iff (names_bureau name) items) as I.
    destruct (find (existsb (names_bureau name)) (sortedRows items)).
    - apply I. discriminate.
    - destruct (existsb (names_bureau name) items); [|reflexivity].
      exfalso. now apply (proj2 I). }
  rewrite !K.
  destruct (find (existsb (names_bureau "TransUnion")) _),
           (find (existsb (names_bureau "Experian")) _),
           (find (existsb (names_bureau "Equifax")) _); reflexivity.
Qed.

Lemma bureaus_of_grid_witness :
  Obj.keys (data (parsePaymentGrid (gridItems three_accounts first_marker)))
  = filter (fun bureauName =>
              existsb (names_bureau bureauName) (gridItems three_accounts first_marker))
           bureaus.
Proof.
  apply bureaus_of_grid; reflexivity.
Defined.

Lemma assignYears_cells (yearRow : list TextItem) (hs : list Header.t) :
  map header_cell (assignYears hs yearRow) = map header_cell hs.
Proof.
  unfold assignYears. revert hs.
  induction yearRow as [|item row IH]; intro hs; simpl; [reflexivity|].
  rewrite IH. unfold assignYear.
  destruct (closestIndex hs (transform4 item)); [|reflexivity].
  now apply modify_map.
Qed.

(** X8.  Every item of the month row, a month name or not, becomes one
    header carrying its trimmed string and its x; nothing else does. *)
Theorem headers_of_month_row (items monthRow yearRow : list TextItem) :
  find (existsb is_month_item) (sortedRows items) = Some monthRow ->
  find (existsb is_year_item) (sortedRows items) = Some yearRow ->
  Permutation (map header_cell (headers (parsePaymentGrid items)))
              (map month_cell monthRow)
  /\ List.length (headers (parsePaymentGrid items)) = List.length monthRow.
Proof.
  intros Hm Hy. rewrite (parsePaymentGrid_rows items monthRow yearRow Hm Hy).
  cbn zeta. cbn [headers].
  assert (P : Permutation (map header_cell (assignYears (mkHeaders monthRow) yearRow))
                          (map month_cell monthRow)).
  { rewrite assignYears_cells. unfold mkHeaders.
    rewrite sort_Permutation, map_map. reflexivity. }
  split; [exact P|].
  apply Permutation_length in P. now rewrite !length_map in P.
Qed.

Lemma headers_of_month_row_witness :
  Permutation (map header_cell (headers (parsePaymentGrid unordered_window)))
              (map month_cell [mkItem "Feb" 1 150 470; mkItem "Jan" 1 100 470])
  /\ List.length (headers (parsePaymentGrid unordered_window))
     = List.length [mkItem "Feb" 1 150 470; mkItem "Jan" 1 100 470].
Proof.
  apply (headers_of_month_row unordered_window _
           [mkItem "23" 1 101 460; mkItem "24" 1 149 460]); reflexivity.
Defined.

(** ** Issues *)

Lemma status_label_current (code : string) :
  status_label code = JStr "Current" -> code = "OK".
Proof.
  unfold status_label, LEGEND_get, LEGEND. cbn [Obj.get].
  repeat match goal with
         | |- context [String.eqb code ?k] =>
             destruct (String.eqb_spec code k) as [->|?]; [cbn; try discriminate; auto|]
         end.
  destruct (existsb (String.eqb code) Object_prototype); cbn; discriminate.
Qed.

Lemma scan_statuses_In (hs : list Header.t) (bureau : string) (statuses : list string)
  (index : nat) (issue : Issue.t) :
  In issue (scan_statuses hs bureau statuses index) ->
  exists j status,
    nth_error statuses j = Some status
    /\ In issue (cell_issues hs bureau status (index + j)).
Proof.
  revert index. induction statuses as [|status statuses IH]; intros index H; simpl in H.
  - destruct H.
  - apply in_app_or in H. destruct H as [H|H].
    + exists 0%nat, status. split; [reflexivity|]. now rewrite Nat.add_0_r.
    + destruct (IH _ H) as (j & s & Hj & Hs).
      exists (S j), s. split; [exact Hj|].
      now replace (index + S j)%nat with (S index + j)%nat by lia.
Qed.

Lemma data_keys_bureaus (items : list TextItem) (bureau : string) :
  In bureau (Obj.keys (data (parsePaymentGrid items))) -> In bureau bureaus.
Proof.
  unfold parsePaymentGrid.
  destruct items as [|item items']; [intros []|].
  destruct (find (existsb is_month_item) _); [|intros []].
  destruct (find (existsb is_year_item) _); [|intros []].
  cbn [data].
  destruct (find (existsb (names_bureau "TransUnion")) _),
           (find (existsb (names_bureau "Experian")) _),
           (find (existsb (names_bureau "Equifax")) _);
    cbn; unfold bureaus; cbn; tauto.
Qed.

(** X9.  Every issue of a parsed grid names one of the three bureaus, takes
    its month and year from a header of the grid (the fallback header
    [N/A] is never used), comes from a status that is neither empty nor OK,
    and does not carry the label [Current]. *)
Theorem issues_come_from_grid (items : list TextItem) (issue : Issue.t) :
  In issue (grid_issues (parsePaymentGrid items)) ->
  In (Issue.bureau issue) bureaus
  /\ (exists i h statuses status,
         nth_error (headers (parsePaymentGrid items)) i = Some h
         /\ In (Issue.bureau issue, statuses) (data (parsePaymentGrid items))
         /\ nth_error statuses i = Some status
         /\ status <> "" /\ status <> "OK"
         /\ Issue.month issue = Header.month h
         /\ Issue.year issue = Header.year h
         /\ Issue.status issue = status_label status)
  /\ Issue.status issue <> JStr "Current".
Proof.
  intro H. unfold grid_issues in H.
  destruct (headers (parsePaymentGrid items)) as [|h0 hs0] eqn:Eh; [destruct H|].
  rewrite <- Eh in *. clear Eh h0 hs0.
  apply in_flat_map in H. destruct H as (bureau & Hb & H).
  destruct (Obj.get String.eqb (data (parsePaymentGrid items)) bureau)
    as [statuses|] eqn:Eg; [|destruct H].
  apply get_In in Eg.
  apply scan_statuses_In in H. destruct H as (j & status & Hj & H).
  simpl in H. unfold cell_issues in H.
  pose proof (data_trimmed items bureau statuses status Eg
                (nth_error_In _ _ Hj)) as Ht.
  rewrite Ht in H.
  destruct (String.eqb_spec status "OK") as [|Nok]; [destruct H|].
  destruct (String.eqb_spec status "") as [|Nemp]; [destruct H|].
  cbn [negb andb] in H. destruct H as [<-|[]]. cbn [Issue.bureau Issue.month Issue.year Issue.status].
  assert (Hlen : (j < List.length (headers (parsePaymentGrid items)))%nat).
  { rewrite <- (data_length items bureau statuses Eg).
    apply nth_error_Some. congruence. }
  unfold header_at.
  destruct (nth_error (headers (parsePaymentGrid items)) j) as [h|] eqn:En;
    [|apply nth_error_Some in Hlen; contradiction].
  split; [now apply (data_keys_bureaus items)|]. split.
  - exists j, h, statuses, status. repeat split; auto.
  - intro F. apply status_label_current in F. contradiction.
Qed.

Lemma issues_come_from_grid_witness :
  In "Equifax" bureaus
  /\ (exists i h statuses status,
         nth_error (headers (parsePaymentGrid (gridItems three_accounts first_marker))) i
         = Some h
         /\ In ("Equifax", statuses)
               (data (parsePaymentGrid (gridItems three_accounts first_marker)))
         /\ nth_error statuses i = Some status
         /\ status <> "" /\ status <> "OK"
         /\ "Feb" = Header.month h
         /\ "2024" = Header.year h
         /\ JStr "Chargeoff or Collection" = status_label status)
  /\ JStr "Chargeoff or Collection" <> JStr "Current".
Proof.
  apply (issues_come_from_grid (gridItems three_accounts first_marker)
           (Issue.mk "Equifax" "Feb" "2024" (JStr "Chargeoff or Collection"))).
  vm_compute. right. now left.
Defined.



(** * Further properties of the analysis *)

(** ** Pages *)

Lemma filter_filter_implied {A : Type} (p q : A -> bool) (l : list A) :
  (forall a, p a = true -> q a = true) -> filter p (filter q l) = filter p l.
Proof.
  intro H. induction l as [|a l IH]; simpl; [reflexivity|].
  destruct (q a) eqn:Q; simpl.
  - now rewrite IH.
  - destruct (p a) eqn:P; [|exact IH]. rewrite (H a P) in Q. discriminate.
Qed.

Lemma is_name_candidate_page (marker item : TextItem) :
  is_name_candidate marker item = true -> on_page (page marker) item = true.
Proof.
  unfold is_name_candidate, on_page. rewrite !andb_true_iff. tauto.
Qed.

Lemma potentialAccountNames_page (textItems : list TextItem) (marker : TextItem) :
  potentialAccountNames (filter (on_page (page marker)) textItems) marker
  = potentialAccountNames textItems marker.
Proof.
  unfold potentialAccountNames. f_equal.
  apply filter_filter_implied. apply is_name_candidate_page.
Qed.

Lemma gridItems_page (textItems : list TextItem) (marker : TextItem) :
  gridItems (filter (on_page (page marker)) textItems) marker
  = gridItems textItems marker.
Proof.
  unfold gridItems. apply filter_filter_implied.
  intros a. unfold on_page. rewrite !andb_true_iff. tauto.
Qed.

Lemma markerAccount_page (textItems : list TextItem) (marker : TextItem) :
  markerAccount (filter (on_page (page marker)) textItems) marker
  = markerAccount textItems marker.
Proof.
  unfold markerAccount, accountName.
  now rewrite potentialAccountNames_page, gridItems_page.
Qed.

Lemma markerAccount_local (textItems textItems' : list TextItem) (marker : TextItem) :
  filter (on_page (page marker)) textItems = filter (on_page (page marker)) textItems' ->
  markerAccount textItems marker = markerAccount textItems' marker.
Proof.
  intro H. rewrite <- (markerAccount_page textItems), <- (markerAccount_page textItems').
  now rewrite H.
Qed.

(** X11.  The account of a marker depends on the items of the marker's page
    only: two streams with the same items on that page give it the same
    name and the same issues. *)
Theorem account_is_page_local (textItems textItems' : list TextItem) (marker : TextItem) :
  filter (on_page (page marker)) textItems = filter (on_page (page marker)) textItems' ->
  markerAccount textItems marker = markerAccount textItems' marker.
Proof.
  intro H. rewrite <- (markerAccount_page textItems), <- (markerAccount_page textItems').
  now rewrite H.
Qed.

Lemma account_is_page_local_witness :
  markerAccount three_accounts first_marker = markerAccount two_accounts first_marker.
Proof.
  apply account_is_page_local. reflexivity.
Defined.

Lemma filter_none {A : Type} (p : A -> bool) (l : list A) :
  (forall a, In a l -> p a = false) -> filter p l = [].
Proof. apply filter_nil_iff. Qed.

Lemma markers_In (textItems : list TextItem) (marker : TextItem) :
  In marker (paymentHistoryMarkers textItems) -> In marker textItems.
Proof. intro H. apply filter_In in H. tauto. Qed.

Lemma accounts_of_app (s1 s2 : list TextItem) :
  (forall a b, In a s1 -> In b s2 -> page a <> page b) ->
  map (markerAccount (s1 ++ s2)) (paymentHistoryMarkers (s1 ++ s2))
  = map (markerAccount s1) (paymentHistoryMarkers s1)
    ++ map (markerAccount s2) (paymentHistoryMarkers s2).
Proof.
  intro D. unfold paymentHistoryMarkers at 1. rewrite filter_app, map_app.
  f_equal; apply map_ext_in; intros m Hm; apply markers_In in Hm;
    apply markerAccount_local; rewrite filter_app.
  - rewrite (filter_none _ s2), app_nil_r; [reflexivity|].
    intros b Hb. apply Z.eqb_neq. intro E. exact (D m b Hm Hb (eq_sym E)).
  - rewrite (filter_none _ s1); [reflexivity|].
    intros a Ha. apply Z.eqb_neq. exact (D a m Ha Hm).
Qed.

Lemma analyze_app (s1 s2 : list TextItem) :
  (forall a b, In a s1 -> In b s2 -> page a <> page b) ->
  analyzeTextContent (s1 ++ s2)
  = merge_outcomes (analyzeTextContent s1) (analyzeTextContent s2).
Proof.
  intro D. unfold analyzeTextContent.
  rewrite (accounts_of_app s1 s2 D), filter_app.
  unfold paymentHistoryMarkers at 1. rewrite filter_app, length_app.
  fold (paymentHistoryMarkers s1) (paymentHistoryMarkers s2).
  destruct (paymentHistoryMarkers s1) as [|m1 l1];
    destruct (paymentHistoryMarkers s2) as [|m2 l2];
    cbn [List.length Nat.add Nat.eqb merge_outcomes]; try reflexivity.
  cbn [map filter app]. now rewrite app_nil_r.
Qed.

(** X12.  Streams that share no page are analysed independently: the
    analysis of their concatenation returns the accounts of the first
    followed by the accounts of the second, and it throws only when both
    do. *)
Theorem pages_are_independent (s1 s2 : list TextItem) :
  (forall a b, In a s1 -> In b s2 -> page a <> page b) ->
  analyzeTextContent (s1 ++ s2)
  = merge_outcomes (analyzeTextContent s1) (analyzeTextContent s2).
Proof.
  intro D. unfold analyzeTextContent.
  rewrite (accounts_of_app s1 s2 D), filter_app.
  unfold paymentHistoryMarkers at 1. rewrite filter_app, length_app.
  fold (paymentHistoryMarkers s1) (paymentHistoryMarkers s2).
  destruct (paymentHistoryMarkers s1) as [|m1 l1];
    destruct (paymentHistoryMarkers s2) as [|m2 l2];
    cbn [List.length Nat.add Nat.eqb merge_outcomes]; try reflexivity.
  cbn [map filter app]. now rewrite app_nil_r.
Qed.

Lemma pages_are_independent_witness :
  analyzeTextContent (two_accounts ++ skipn 19 three_accounts)
  = merge_outcomes (analyzeTextContent two_accounts)
                   (analyzeTextContent (skipn 19 three_accounts)).
Proof.
  apply pages_are_independent.
  intros a b Ha Hb. vm_compute in Ha, Hb.
  repeat (destruct Ha as [<-|Ha];
          [repeat (destruct Hb as [<-|Hb]; [discriminate|]); destruct Hb|]).
  destruct Ha.
Defined.

(** ** The window and the names *)

Lemma lt_irrefl_item (a : Q) : ~ a < a - 20.
Proof.
  intro H. apply (Qlt_irrefl a). eapply Qlt_trans; [exact H|].
  apply (Qplus_lt_l _ _ 20). setoid_replace (a - 20 + 20) with (a + 0) by ring.
  apply Qplus_lt_r. reflexivity.
Qed.

(** X13.  The grid window of a marker lies on the marker's page, strictly
    between 100 and 20 units below it: a marker is never an item of its own
    grid, and no item is both a candidate name and a grid item of the same
    marker. *)
Theorem window_is_below_marker (textItems : list TextItem) (marker item : TextItem) :
  In item (gridItems textItems marker) ->
  In item textItems
  /\ page item = page marker
  /\ transform5 marker - 100 < transform5 item
  /\ transform5 item < transform5 marker - 20
  /\ item <> marker
  /\ is_name_candidate marker item = false.
Proof.
  unfold gridItems. rewrite filter_In, !andb_true_iff, Z.eqb_eq, !lt_true_iff.
  intros (Hin & (Hp & Hb) & Ht).
  repeat split; auto.
  - intros ->. exact (lt_irrefl_item _ Hb).
  - unfold is_name_candidate.
    replace (Num.lt (transform5 marker) (transform5 item)) with false;
      [now rewrite andb_false_r|].
    symmetry. apply lt_false_iff. apply Qlt_le_weak.
    eapply Qlt_trans; [exact Hb|].
    apply (Qplus_lt_l _ _ 20).
    setoid_replace (transform5 marker - 20 + 20) with (transform5 marker + 0) by ring.
    apply Qplus_lt_r. reflexivity.
Qed.

Lemma window_is_below_marker_witness :
  In (mkItem " CO " 1 149 430) three_accounts
  /\ page (mkItem " CO " 1 149 430) = page first_marker
  /\ transform5 first_marker - 100 < transform5 (mkItem " CO " 1 149 430)
  /\ transform5 (mkItem " CO " 1 149 430) < transform5 first_marker - 20
  /\ mkItem " CO " 1 149 430 <> first_marker
  /\ is_name_candidate first_marker (mkItem " CO " 1 149 430) = false.
Proof.
  apply window_is_below_marker. vm_compute. do 8 right. now left.
Defined.

(** ** The outcome of the analysis *)

(** X14.  The analysis throws exactly when no item contains the sentinel
    phrase; otherwise it returns, with at most one account per marker, also
    when no account has an issue. *)
Theorem throws_iff_no_marker (textItems : list TextItem) :
  (analyzeTextContent textItems = Throw unsupported
   <-> forall item, In item textItems -> Str.includes (str item) sentinel = false)
  /\ ((exists item, In item textItems /\ Str.includes (str item) sentinel = true)
      <-> exists accounts,
          analyzeTextContent textItems = Return accounts
          /\ (List.length accounts <= List.length (paymentHistoryMarkers textItems))%nat).
Proof.
  unfold analyzeTextContent.
  pose proof (filter_nil_iff is_marker textItems) as N.
  fold (paymentHistoryMarkers textItems) in N.
  destruct (paymentHistoryMarkers textItems) as [|m ms] eqn:E; cbn [List.length Nat.eqb].
  - split.
    + split; [intros _; now apply N|reflexivity].
    + split.
      * intros (item & Hi & Hs). pose proof (proj1 N eq_refl item Hi) as F.
        unfold is_marker in F. congruence.
      * intros (accounts & F & _). discriminate.
  - split.
    + split; [discriminate|]. intro H. apply N in H. discriminate.
    + split.
      * intros _. eexists. split; [reflexivity|].
        etransitivity; [apply filter_length_le|]. now rewrite length_map.
      * intros _. exists m. 
        assert (Hm : In m (paymentHistoryMarkers textItems)) by (rewrite E; now left).
        apply filter_In in Hm. exact Hm.
Qed.

(** ** Ties between candidate names *)







Example tied_names_first : accountName tied_names tied_marker = "FIRST BANK".
Proof. reflexivity. Qed.

(** * Properties of the extraction and of the route *)

(** ** Page tagging *)

Lemma extractPages_pages (pages : list (list TextItem)) (i : Z) (item : TextItem) :
  In item (extractPages pages i) ->
  (i <= page item < i + Z.of_nat (List.length pages))%Z.
Proof.
  revert i. induction pages as [|items pages IH]; intros i H; [destruct H|].
  cbn [extractPages] in H. apply in_app_or in H.
  cbn [List.length]. rewrite Nat2Z.inj_succ. destruct H as [H|H].
  - apply in_map_iff in H. destruct H as (it & <- & _). cbn [set_page page]. lia.
  - apply IH in H. lia.
Qed.

Lemma extractPages_on_page (pages : list (list TextItem)) (i : Z) (n : nat)
  (items : list TextItem) :
  nth_error pages n = Some items ->
  filter (on_page (i + Z.of_nat n)) (extractPages pages i)
  = map (set_page (i + Z.of_nat n)) items.
Proof.
  revert i n. induction pages as [|first pages IH]; intros i n H;
    [destruct n; discriminate|].
  cbn [extractPages]. rewrite filter_app. destruct n as [|n]; cbn [nth_error] in H.
  - injection H as ->. rewrite Z.add_0_r.
    rewrite (filter_none _ (extractPages pages (i + 1))).
    + rewrite app_nil_r. rewrite filter_map_comm. f_equal.
      apply forallb_filter_id. apply forallb_forall. intros a _.
      unfold on_page. cbn [set_page page]. apply Z.eqb_refl.
    + intros a Ha. apply extractPages_pages in Ha. apply Z.eqb_neq. lia.
  - rewrite (filter_none _ (map (set_page i) first)).
    + cbn [app]. replace (i + Z.of_nat (S n))%Z with ((i + 1) + Z.of_nat n)%Z by lia.
      now apply IH.
    + intros a Ha. apply in_map_iff in Ha. destruct Ha as (it & <- & _).
      unfold on_page. cbn [set_page page]. apply Z.eqb_neq. lia.
Qed.

Lemma extractPages_sorted (pages : list (list TextItem)) (i : Z) :
  StronglySorted (fun a b => (page a <= page b)%Z) (extractPages pages i).
Proof.
  revert i. induction pages as [|items pages IH]; intro i; [constructor|].
  cbn [extractPages].
  induction items as [|item items IHi]; cbn [map app]; [apply IH|].
  constructor; [exact IHi|].
  apply Forall_forall. intros b Hb. cbn [set_page page].
  apply in_app_or in Hb. destruct Hb as [Hb|Hb].
  - apply in_map_iff in Hb. destruct Hb as (it & <- & _). cbn [set_page page]. lia.
  - apply extractPages_pages in Hb. lia.
Qed.

(** X18.  The extracted stream lists the items page after page: every item
    carries a page number between 1 and [numPages], the page numbers never
    decrease along the stream, and the items of page [n + 1] are the items
    of the [n]-th page of the document, in their order. *)
Theorem extraction_is_page_ordered (pages : list (list TextItem)) :
  snd (parsePdfWithPdfJs pages) = Z.of_nat (List.length pages)
  /\ (forall item, In item (fst (parsePdfWithPdfJs pages)) ->
                   (1 <= page item <= snd (parsePdfWithPdfJs pages))%Z)
  /\ StronglySorted (fun a b => (page a <= page b)%Z) (fst (parsePdfWithPdfJs pages))
  /\ (forall n items,
         nth_error pages n = Some items ->
         filter (on_page (Z.of_nat n + 1)) (fst (parsePdfWithPdfJs pages))
         = map (set_page (Z.of_nat n + 1)) items).
Proof.
  unfold parsePdfWithPdfJs. cbn [fst snd].
  split; [reflexivity|]. split; [|split].
  - intros item H. apply extractPages_pages in H. lia.
  - apply extractPages_sorted.
  - intros n items H. rewrite (Z.add_comm (Z.of_nat n) 1).
    now apply extractPages_on_page.
Qed.

(** ** A document is analysed page by page *)

Lemma extractPages_concat (pages : list (list TextItem)) (i : Z) :
  extractPages pages i = List.concat (pageStreams pages i).
Proof.
  revert i. induction pages as [|items pages IH]; intro i; [reflexivity|].
  cbn [extractPages pageStreams List.concat]. now rewrite IH.
Qed.

(** X19.  The analysis of an extracted document is the analysis of its
    pages, one after the other: the accounts of page 1, then those of page
    2, and so on; it throws only when no page has a marker.  No account
    uses text of another page. *)
Theorem document_is_analysed_page_by_page (pages : list (list TextItem)) :
  analyzeTextContent (fst (parsePdfWithPdfJs pages))
  = fold_right merge_outcomes (Throw unsupported)
               (map analyzeTextContent (pageStreams pages 1)).
Proof.
  unfold parsePdfWithPdfJs. cbn [fst]. generalize 1%Z.
  induction pages as [|items pages IH]; intro i; [reflexivity|].
  cbn [extractPages pageStreams map fold_right].
  rewrite analyze_app.
  - now rewrite IH.
  - intros a b Ha Hb. apply in_map_iff in Ha. destruct Ha as (it & <- & _).
    apply extractPages_pages in Hb. cbn [set_page page]. lia.
Qed.

(** ** The route *)

Lemma extractPages_str (pages : list (list TextItem)) (i : Z) (s : string) :
  (exists item, In item (extractPages pages i) /\ str item = s)
  <-> exists items it, In items pages /\ In it items /\ str it = s.
Proof.
  revert i. induction pages as [|first pages IH]; intro i; cbn [extractPages].
  - split; [intros (item & [] & _)|intros (items & it & [] & _)].
  - split.
    + intros (item & H & E). apply in_app_or in H. destruct H as [H|H].
      * apply in_map_iff in H. destruct H as (it & <- & Hit).
        exists first, it. repeat split; auto. now left.
      * destruct (proj1 (IH (i + 1)%Z)) as (items & it & Hp & Hit & Es); [eauto|].
        exists items, it. repeat split; auto. now right.
    + intros (items & it & [<-|Hp] & Hit & E).
      * exists (set_page i it). split; [|exact E].
        apply in_or_app. left. now apply in_map.
      * destruct (proj2 (IH (i + 1)%Z)) as (item & H & Es); [eauto|].
        exists item. split; [|exact Es]. apply in_or_app. now right.
Qed.

(** X20.  What [POST /analyze] answers for an uploaded file that PDF.js
    decodes.  When no text item of the document contains the sentinel
    phrase the status is 500 and the body carries the unsupported-format
    message with [success: false].  Otherwise the status is 200, also when
    no account has an issue: [results] holds the returned accounts, each
    with at least one issue, [accountsWithIssues] is their number and
    [totalPages] the number of pages. *)
Theorem post_analyze_answers (f : Upload) (pages : list (list TextItem)) :
  ((forall items item, In items pages -> In item items ->
                       Str.includes (str item) sentinel = false) ->
   postAnalyze (Some f) (inl pages) = (500%Z, Failure unsupported (Some false)))
  /\ ((exists items item, In items pages /\ In item items
                          /\ Str.includes (str item) sentinel = true) ->
      exists results,
        postAnalyze (Some f) (inl pages)
        = (200%Z, Analysis true (originalname f) (Z.of_nat (List.length pages))
                          (List.length results) results LEGEND)
        /\ analyzeTextContent (fst (parsePdfWithPdfJs pages)) = Return results
        /\ forall acc, In acc results -> Account.issues acc <> []).
Proof.
  unfold postAnalyze, parsePdfWithPdfJs. cbn [fst].
  split.
  - intro H.
    assert (E : paymentHistoryMarkers (extractPages pages 1) = []).
    { apply filter_nil_iff. intros item Hi. unfold is_marker.
      destruct (proj1 (extractPages_str pages 1 (str item))) as (items & it & Hp & Hit & Es);
        [eauto|].
      rewrite <- Es. now apply (H items it). }
    unfold analyzeTextContent. rewrite E. reflexivity.
  - intros (items & it & Hp & Hit & Hs).
    assert (N : paymentHistoryMarkers (extractPages pages 1) <> []).
    { intro E.
      destruct (proj2 (extractPages_str pages 1 (str it))) as (item & Hi & Es); [eauto|].
      pose proof (proj1 (filter_nil_iff is_marker _) E item Hi) as F.
      unfold is_marker in F. rewrite Es in F. congruence. }
    rewrite (analyze_returns _ N).
    eexists. split; [reflexivity|]. split; [reflexivity|].
    intros acc Hacc. apply filter_In in Hacc. now apply has_issues_iff.
Qed.

Lemma post_analyze_answers_witness :
  exists results,
    postAnalyze (Some (mkUpload "report.pdf")) (inl [sample; []])
    = (200%Z, Analysis true "report.pdf" 2 (List.length results) results LEGEND)
    /\ analyzeTextContent (fst (parsePdfWithPdfJs [sample; []])) = Return results
    /\ forall acc, In acc results -> Account.issues acc <> [].
Proof.
  apply (proj2 (post_analyze_answers (mkUpload "report.pdf") [sample; []])).
  exists sample, (mkItem "Two-Year payment history" 1 50 500).
  split; [now left|]. split; [now left|reflexivity].
Defined.

(** ** Labels and number of issues *)

Lemma cell_issues_unknown_witness :
  cell_issues two_headers "Experian" " XX " 1
  = [ Issue.mk "Experian" (Header.month (header_at two_headers 1))
               (Header.year (header_at two_headers 1))
               (JStr ("Unknown Code: " ++ Str.trim " XX ")) ].
Proof.
  apply cell_issues_unknown; try reflexivity; discriminate.
Defined.

(** X21.  A cell whose trimmed text is a code of the table other than OK
    raises one issue, and its status is the label that the table gives to
    the code. *)
Theorem known_code_is_labelled (hs : list Header.t) (bureau status code label : string)
  (index : nat) :
  In (code, label) LEGEND ->
  code <> "OK" ->
  Str.trim status = code ->
  cell_issues hs bureau status index
  = [ Issue.mk bureau (Header.month (header_at hs index))
               (Header.year (header_at hs index)) (JStr label) ].
Proof.
  intros Hin Hok Ht. unfold cell_issues. rewrite Ht.
  unfold LEGEND in Hin. cbn [In] in Hin.
  repeat (destruct Hin as [Hin|Hin];
          [injection Hin as <- <-; try congruence; reflexivity|]).
  destruct Hin.
Qed.

Lemma known_code_is_labelled_witness :
  cell_issues two_headers "Equifax" " CO " 1
  = [ Issue.mk "Equifax" (Header.month (header_at two_headers 1))
               (Header.year (header_at two_headers 1))
               (JStr "Chargeoff or Collection") ].
Proof.
  apply (known_code_is_labelled two_headers "Equifax" " CO " "CO").
  - simpl. do 7 right. now left.
  - discriminate.
  - reflexivity.
Defined.

Lemma cell_issues_length (hs : list Header.t) (bureau status : string) (index : nat) :
  List.length (cell_issues hs bureau status index)
  = if is_abnormal status then 1%nat else 0%nat.
Proof.
  unfold cell_issues, is_abnormal.
  now destruct (negb (Str.trim status =? "OK") && negb (Str.trim status =? "")).
Qed.

Lemma scan_statuses_length (hs : list Header.t) (bureau : string)
  (statuses : list string) (index : nat) :
  List.length (scan_statuses hs bureau statuses index)
  = List.length (filter is_abnormal statuses).
Proof.
  revert index. induction statuses as [|status statuses IH]; intro index;
    cbn [scan_statuses filter]; [reflexivity|].
  rewrite length_app, cell_issues_length, IH.
  now destruct (is_abnormal status).
Qed.

Lemma decodeRow_no_header (statusItems : list TextItem) : decodeRow [] statusItems = [].
Proof.
  apply length_zero_iff_nil. now rewrite decodeRow_length.
Qed.

(** X23.  A grid raises exactly one issue for each stored status that is
    neither OK nor empty: no such cell is dropped and none is reported
    twice. *)
Theorem one_issue_per_abnormal_status (items : list TextItem) :
  List.length (grid_issues (parsePaymentGrid items))
  = List.length (filter is_abnormal
                        (List.concat (map snd (data (parsePaymentGrid items))))).
Proof.
  unfold parsePaymentGrid.
  destruct items as [|item items']; [reflexivity|].
  destruct (find (existsb is_month_item) _) as [monthRow|]; [|reflexivity].
  destruct (find (existsb is_year_item) _) as [yearRow|]; [|reflexivity].
  unfold grid_issues. cbn [headers data].
  destruct (assignYears (mkHeaders monthRow) yearRow) as [|h hs].
  - destruct (find (existsb (names_bureau "TransUnion")) _),
             (find (existsb (names_bureau "Experian")) _),
             (find (existsb (names_bureau "Equifax")) _);
      unfold processBureauRow; cbv zeta; rewrite ?decodeRow_no_header; reflexivity.
  - destruct (find (existsb (names_bureau "TransUnion")) _),
             (find (existsb (names_bureau "Experian")) _),
             (find (existsb (names_bureau "Equifax")) _);
      unfold processBureauRow; cbv zeta;
      cbn [Obj.set Obj.get Obj.keys map fst snd flat_map String.eqb Ascii.eqb
           Bool.eqb List.concat app];
      rewrite ?app_nil_r, ?filter_app, ?length_app, ?scan_statuses_length;
      reflexivity.
Qed.

(** * Translation along x, on doubles *)

Section DoubleTranslation.
Variable d : float.















End DoubleTranslation.





(** * The worked example *)

Lemma StronglySorted_unique {A : Type} (key : A -> Z) (l1 l2 : list A) :
  StronglySorted (fun a b => (key b < key a)%Z) l1 ->
  StronglySorted (fun a b => (key b < key a)%Z) l2 ->
  (forall a, In a l1 <-> In a l2) ->
  l1 = l2.
Proof.
  intro S1. revert l2. induction S1 as [|a1 l1 S1 IH F1]; intros l2 S2 H.
  - destruct l2 as [|a2 l2]; [reflexivity|].
    exfalso. apply (proj2 (H a2)). now left.
  - destruct S2 as [|a2 l2 S2 F2].
    + exfalso. apply (proj1 (H a1)). now left.
    + rewrite Forall_forall in F1, F2.
      assert (E : a1 = a2).
      { destruct (proj1 (H a1) (or_introl eq_refl)) as [E|I1]; [now symmetry|].
        destruct (proj2 (H a2) (or_introl eq_refl)) as [E|I2]; [exact E|].
        specialize (F1 a2 I2). specialize (F2 a1 I1). lia. }
      subst a2. f_equal. apply IH; [exact S2|].
      intro a. split; intro I.
      * destruct (proj1 (H a) (or_intror I)) as [<-|I2]; [|exact I2].
        specialize (F1 a1 I). lia.
      * destruct (proj2 (H a) (or_intror I)) as [<-|I1]; [|exact I1].
        specialize (F2 a1 I). lia.
Qed.












